(** * The Sawyer robot adapter (garage/contrib/ros/robots/sawyer.py)

    A shallow embedding of the [Sawyer] class and the proofs of the
    properties stated about it.

    Conventions of the embedding:
    - Python floats are idealised as exact rationals ([Q]); no statement
      below depends on rounding.
    - a Python [dict] of joint names to floats is an association list: its
      iteration order is the insertion order and matters for the code.
    - the robot SDK, the ROS runtime and the validity service are external:
      what they report is read from a [World]; every call that leaves the
      adapter (SDK writes, service queries) is appended to a log.
    - a Python exception aborts the method and keeps the effects done
      before it: a method is a function [World -> St -> (Exn + A) * St].
    - the base class [Robot] and the class [StateValidity] live outside
      sawyer.py: [Robot.__init__] and the constructors of the external
      handles are taken to return, and the verdict of
      [StateValidity.get_state_validity] is a field of the [World]. *)

From Stdlib Require Import QArith String Ascii List Bool Arith Lia.
From Stdlib Require Import Lqa DecimalString.
Import ListNotations.

Local Open Scope string_scope.
Local Open Scope list_scope.
Local Open Scope Q_scope.

(** ** Python values *)

Module Py.

(** The exceptions the adapter can raise. *)
Inductive value_error : Type :=
| NotInList (x : string)            (* list.index(x) *)
| InvalidLiteral (c : ascii)        (* int(c) *)
| BroadcastShapes                   (* numpy: operands could not be broadcast *)
| Message (msg : string).           (* raise ValueError(msg) *)

Inductive Exn : Type :=
| ValueError (why : value_error)
| KeyError (key : string)
| IndexError
| UnboundLocalError (var : string).

Definition Result (A : Type) : Type := (Exn + A)%type.

Definition ok {A} (a : A) : Result A := inr a.
Definition raise {A} (e : Exn) : Result A := inl e.

Definition bindR {A B} (r : Result A) (k : A -> Result B) : Result B :=
  match r with
  | inl e => inl e
  | inr a => k a
  end.

Definition is_ok {A} (r : Result A) : bool :=
  match r with inr _ => true | inl _ => false end.

(** [dict]: insertion-ordered association list. *)
Definition dict : Type := list (string * Q).

Definition keys (d : dict) : list string := map fst d.
Definition values (d : dict) : list Q := map snd d.

Fixpoint dict_get (d : dict) (k : string) : option Q :=
  match d with
  | [] => None
  | (k', v) :: rest => if String.eqb k k' then Some v else dict_get rest k
  end.

(** [d[k]] *)
Definition getitem (d : dict) (k : string) : Result Q :=
  match dict_get d k with
  | Some v => ok v
  | None => raise (KeyError k)
  end.

(** [d[k] = v]: an existing key keeps its place, a new one goes last. *)
Fixpoint dict_set (d : dict) (k : string) (v : Q) : dict :=
  match d with
  | [] => [(k, v)]
  | (k', v') :: rest =>
      if String.eqb k k' then (k', v) :: rest else (k', v') :: dict_set rest k v
  end.

(** A Python dict has each key once. *)
Definition dict_wf (d : dict) : Prop := NoDup (keys d).

(** [xs.index(x)]: the place of the first [x]. *)
Fixpoint find_index (xs : list string) (x : string) : option nat :=
  match xs with
  | [] => None
  | y :: rest =>
      if String.eqb y x then Some 0%nat else option_map S (find_index rest x)
  end.

Definition list_index (xs : list string) (x : string) : Result nat :=
  match find_index xs x with
  | Some i => ok i
  | None => raise (ValueError (NotInList x))
  end.

(** [xs[i]] for [0 <= i] *)
Definition index {A} (xs : list A) (i : nat) : Result A :=
  match nth_error xs i with
  | Some x => ok x
  | None => raise IndexError
  end.

(** [xs[i:i + 1]] *)
Definition slice1 {A} (xs : list A) (i : nat) : list A := firstn 1 (skipn i xs).

(** [s[-1]] *)
Fixpoint last_char (s : string) : Result ascii :=
  match s with
  | EmptyString => raise IndexError
  | String c EmptyString => ok c
  | String _ rest => last_char rest
  end.

(** [int(c)] for a one-character string. *)
Definition int_of_char (c : ascii) : Result nat :=
  let n := nat_of_ascii c in
  if ((48 <=? n) && (n <=? 57))%nat then ok (n - 48)%nat
  else raise (ValueError (InvalidLiteral c)).

(** [int(j[-1])] *)
Definition joint_number (j : string) : Result nat :=
  bindR (last_char j) int_of_char.

(** Local variable that may not be bound yet. *)
Definition read_local {A} (name : string) (v : option A) : Result A :=
  match v with
  | Some a => ok a
  | None => raise (UnboundLocalError name)
  end.

(** ['Control mode %s is not known!' % mode] *)
Definition unknown_mode_message (mode : string) : string :=
  ("Control mode " ++ mode ++ " is not known!")%string.

End Py.
Import Py.

Declare Scope res_scope.
Delimit Scope res_scope with res.
Notation "x <- e ;; k" := (bindR e (fun x => k))
  (at level 100, e at next level, right associativity) : res_scope.

(** ** numpy on one-dimensional arrays *)

Module Np.

Definition full (n : nat) (v : Q) : list Q := repeat v n.
Definition neg (xs : list Q) : list Q := map Qopp xs.
Definition scale (xs : list Q) (c : Q) : list Q := map (fun x => x * c) xs.
Definition concatenate (xs ys : list Q) : list Q := xs ++ ys.

Definition maximum (x y : Q) : Q := if Qle_bool x y then y else x.
Definition minimum (x y : Q) : Q := if Qle_bool x y then x else y.

(** [np.clip] on scalars: [minimum(maximum(a, lo), hi)]. *)
Definition clip1 (a lo hi : Q) : Q := minimum (maximum a lo) hi.

(** Broadcasting of two one-dimensional shapes. *)
Definition broadcast_dim (m n : nat) : Result nat :=
  if (m =? n)%nat then ok m
  else if (m =? 1)%nat then ok n
  else if (n =? 1)%nat then ok m
  else raise (ValueError BroadcastShapes).

Definition broadcast_to (n : nat) (xs : list Q) : list Q :=
  match xs with
  | [x] => repeat x n
  | _ => xs
  end.

(** [np.clip(a, lo, hi)] on arrays. *)
Definition clip (a lo hi : list Q) : Result (list Q) :=
  (n1 <- broadcast_dim (length a) (length lo) ;;
   n <- broadcast_dim n1 (length hi) ;;
   ok (map (fun t => clip1 (fst t) (fst (snd t)) (snd (snd t)))
         (combine (broadcast_to n a)
            (combine (broadcast_to n lo) (broadcast_to n hi)))))%res.

End Np.

(** ** Messages and SDK values *)

(** geometry: [Point(x, y, z)] and [Quaternion(x, y, z, w)] named tuples. *)
Record Point : Type := { px : Q; py : Q; pz : Q }.
Record Quaternion : Type := { qx : Q; qy : Q; qz : Q; qw : Q }.

Definition np_array_point (p : Point) : list Q := [px p; py p; pz p].
Definition np_array_quaternion (q : Quaternion) : list Q :=
  [qx q; qy q; qz q; qw q].

(** What [Limb.endpoint_pose()], [endpoint_velocity()] and
    [endpoint_effort()] return, by key. *)
Record EndpointPose : Type := { position : Point; orientation : Quaternion }.
Record EndpointVelocity : Type := { linear : Point; angular : Point }.
Record EndpointEffort : Type := { force : Point; torque : Point }.

(** intera_core_msgs/JointLimits *)
Record JointLimits : Type := {
  joint_names : list string;
  position_lower : list Q;
  position_upper : list Q;
  velocity : list Q;
  accel : list Q;
  effort : list Q
}.

(** moveit_msgs/RobotState, the part the adapter fills: [joint_state]. *)
Record RobotState : Type := {
  joint_state_name : list string;
  joint_state_position : list Q
}.

Definition RobotState_new : RobotState :=
  {| joint_state_name := []; joint_state_position := [] |}.

(** [gym.spaces.Box]: bounded by arrays, or unbounded with a shape. *)
Inductive Box : Type :=
| BoxBounds (low high : list Q)
| BoxUnbounded (shape : nat).

Definition low (b : Box) : list Q :=
  match b with BoxBounds l _ => l | BoxUnbounded _ => [] end.
Definition high (b : Box) : list Q :=
  match b with BoxBounds _ h => h | BoxUnbounded _ => [] end.

(** ** The adapter object, the outside world and the method monad *)

(** Fields of a [Sawyer] instance.  The handles [_limb], [_gripper] and
    [_sv] stand for the external objects of the [World]. *)
Record Sawyer : Type := {
  _initial_joint_pos : dict;
  _control_mode : string;
  _used_joints : list string;
  _joint_limits : JointLimits;
  _moveit_group : string
}.

(** What the outside reports when asked. *)
Record World : Type := {
  limb_joint_angles : dict;
  limb_joint_velocities : dict;
  limb_joint_efforts : dict;
  limb_endpoint_pose : EndpointPose;
  limb_endpoint_velocity : EndpointVelocity;
  limb_endpoint_effort : EndpointEffort;
  rospy_is_shutdown : bool;
  joint_limits_topic : JointLimits;         (* '/robot/joint_limits' *)
  state_validity : RobotState -> string -> bool   (* result.valid *)
}.

(** Calls that leave the adapter. *)
Inductive Call : Type :=
| set_joint_positions (cmd : dict)
| set_joint_velocities (cmd : dict)
| set_joint_torques (cmd : dict)
| move_to_joint_positions (cmd : dict) (timeout : Q)
| gripper_open
| gripper_set_position (p : Q)
| rospy_sleep (t : Q)
| get_state_validity (rs : RobotState) (group : string).

Record St : Type := { self : Sawyer; log : list Call }.

Definition M (A : Type) : Type := World -> St -> Result A * St.

Definition ret {A} (a : A) : M A := fun _ st => (ok a, st).
Definition throw {A} (e : Exn) : M A := fun _ st => (raise e, st).
Definition bind {A B} (m : M A) (k : A -> M B) : M B :=
  fun w st =>
    match m w st with
    | (inl e, st') => (inl e, st')
    | (inr a, st') => k a w st'
    end.
Definition lift {A} (r : Result A) : M A := fun _ st => (r, st).
Definition ask {A} (f : World -> A) : M A := fun w st => (ok (f w), st).
Definition get_self {A} (f : Sawyer -> A) : M A :=
  fun _ st => (ok (f (self st)), st).
Definition set_self (f : Sawyer -> Sawyer) : M unit :=
  fun _ st => (ok tt, {| self := f (self st); log := log st |}).
Definition call (c : Call) : M unit :=
  fun _ st => (ok tt, {| self := self st; log := log st ++ [c] |}).

Declare Scope act_scope.
Delimit Scope act_scope with act.
Notation "x <- e ;; k" := (bind e (fun x => k))
  (at level 100, e at next level, right associativity) : act_scope.
Notation "e ;;; k" := (bind e (fun _ => k))
  (at level 100, k at level 200, right associativity) : act_scope.

Local Open Scope act_scope.

(** [for x in xs: body(x)] *)
Fixpoint for_each {A} (xs : list A) (body : A -> M unit) : M unit :=
  match xs with
  | [] => ret tt
  | x :: rest => body x ;;; for_each rest body
  end.

(** ** class Sawyer *)

(** Attribute assignment, one setter per field. *)
Definition set_initial_joint_pos (v : dict) (s : Sawyer) : Sawyer :=
  {| _initial_joint_pos := v; _control_mode := _control_mode s;
     _used_joints := _used_joints s; _joint_limits := _joint_limits s;
     _moveit_group := _moveit_group s |}.
Definition set_control_mode (v : string) (s : Sawyer) : Sawyer :=
  {| _initial_joint_pos := _initial_joint_pos s; _control_mode := v;
     _used_joints := _used_joints s; _joint_limits := _joint_limits s;
     _moveit_group := _moveit_group s |}.
Definition set_used_joints (v : list string) (s : Sawyer) : Sawyer :=
  {| _initial_joint_pos := _initial_joint_pos s;
     _control_mode := _control_mode s;
     _used_joints := v; _joint_limits := _joint_limits s;
     _moveit_group := _moveit_group s |}.
Definition set_joint_limits (v : JointLimits) (s : Sawyer) : Sawyer :=
  {| _initial_joint_pos := _initial_joint_pos s;
     _control_mode := _control_mode s;
     _used_joints := _used_joints s; _joint_limits := v;
     _moveit_group := _moveit_group s |}.
Definition set_moveit_group (v : string) (s : Sawyer) : Sawyer :=
  {| _initial_joint_pos := _initial_joint_pos s;
     _control_mode := _control_mode s;
     _used_joints := _used_joints s; _joint_limits := _joint_limits s;
     _moveit_group := v |}.

(** The object before [__init__] has assigned anything. *)
Definition JointLimits_empty : JointLimits :=
  {| joint_names := []; position_lower := []; position_upper := [];
     velocity := []; accel := []; effort := [] |}.

Definition blank : Sawyer :=
  {| _initial_joint_pos := []; _control_mode := ""; _used_joints := [];
     _joint_limits := JointLimits_empty; _moveit_group := "" |}.

Definition __init__ (initial_joint_pos : dict) (moveit_group : string)
    (control_mode : string) : M unit :=
  set_self (set_initial_joint_pos initial_joint_pos) ;;;
  set_self (set_control_mode control_mode) ;;;
  set_self (set_used_joints []) ;;;
  for_each (keys initial_joint_pos)
    (fun joint => set_self (fun s => set_used_joints (_used_joints s ++ [joint]) s)) ;;;
  msg <- ask joint_limits_topic ;;
  set_self (set_joint_limits msg) ;;;
  set_self (set_moveit_group moveit_group).

(** The adapter [Sawyer(initial_joint_pos, moveit_group, control_mode)]
    yields in world [w], with an empty log. *)
Definition construct (w : World) (initial_joint_pos : dict)
    (moveit_group control_mode : string) : Result unit * St :=
  __init__ initial_joint_pos moveit_group control_mode w
    {| self := blank; log := [] |}.

(** The loop of [safety_check] and [safety_predict]:
    [rs.joint_state.name.append(joint)],
    [rs.joint_state.position.append(joint_angles[joint])]. *)
Fixpoint fill_joint_state (joints : list string) (joint_angles : dict)
    (rs : RobotState) : Result RobotState :=
  match joints with
  | [] => ok rs
  | joint :: rest =>
      (p <- getitem joint_angles joint ;;
       fill_joint_state rest joint_angles
         {| joint_state_name := joint_state_name rs ++ [joint];
            joint_state_position := joint_state_position rs ++ [p] |})%res
  end.

Definition safety_check : M bool :=
  let rs := RobotState_new in
  current_joint_angles <- ask limb_joint_angles ;;
  rs <- lift (fill_joint_state (keys current_joint_angles)
                current_joint_angles rs) ;;
  group <- get_self _moveit_group ;;
  call (get_state_validity rs group) ;;;
  valid <- ask (fun w => state_validity w rs group) ;;
  ret valid.

Definition safety_predict (joint_angles : dict) : M bool :=
  let rs := RobotState_new in
  rs <- lift (fill_joint_state (keys joint_angles) joint_angles rs) ;;
  group <- get_self _moveit_group ;;
  call (get_state_validity rs group) ;;;
  valid <- ask (fun w => state_validity w rs group) ;;
  ret valid.

(** The loop of [_set_limb_joint_positions]; it rewrites the caller's dict
    in place, key by key. *)
Fixpoint damp_joint_cmds (joints : list string) (current_joint_angles : dict)
    (joint_angle_cmds : dict) : Result dict :=
  match joints with
  | [] => ok joint_angle_cmds
  | joint :: rest =>
      (c <- getitem joint_angle_cmds joint ;;
       p <- getitem current_joint_angles joint ;;
       let joint_cmd_delta := c - p in
       p' <- getitem current_joint_angles joint ;;
       damp_joint_cmds rest current_joint_angles
         (dict_set joint_angle_cmds joint (p' + joint_cmd_delta * 0.1)))%res
  end.

Definition _set_limb_joint_positions (joint_angle_cmds : dict) : M unit :=
  current_joint_angles <- ask limb_joint_angles ;;
  joint_angle_cmds <- lift (damp_joint_cmds (keys joint_angle_cmds)
                              current_joint_angles joint_angle_cmds) ;;
  safe <- safety_predict joint_angle_cmds ;;
  if (safe : bool) then call (set_joint_positions joint_angle_cmds) else ret tt.

Definition _set_limb_joint_velocities (joint_angle_cmds : dict) : M unit :=
  call (set_joint_velocities joint_angle_cmds).

Definition _set_limb_joint_torques (joint_angle_cmds : dict) : M unit :=
  call (set_joint_torques joint_angle_cmds).

Definition _set_gripper_position (position : Q) : M unit :=
  call (gripper_set_position position).

Definition _move_to_start_position : M unit :=
  shutdown <- ask rospy_is_shutdown ;;
  if (shutdown : bool) then ret tt
  else
    initial_joint_pos <- get_self _initial_joint_pos ;;
    call (move_to_joint_positions initial_joint_pos 5.0) ;;;
    call gripper_open ;;;
    call (rospy_sleep 0.01).

Definition reset : M unit := _move_to_start_position.

Definition get_observation : M (list Q) :=
  (* cartesian space *)
  pose <- ask limb_endpoint_pose ;;
  let gripper_pos := np_array_point (position pose) in
  pose <- ask limb_endpoint_pose ;;
  let gripper_ori := np_array_quaternion (orientation pose) in
  vel <- ask limb_endpoint_velocity ;;
  let gripper_lvel := np_array_point (linear vel) in
  vel <- ask limb_endpoint_velocity ;;
  let gripper_avel := np_array_point (angular vel) in
  eff <- ask limb_endpoint_effort ;;
  let gripper_force := np_array_point (force eff) in
  eff <- ask limb_endpoint_effort ;;
  let gripper_torque := np_array_point (torque eff) in
  (* joint space *)
  angles <- ask limb_joint_angles ;;
  let robot_joint_angles := values angles in
  velocities <- ask limb_joint_velocities ;;
  let robot_joint_velocities := values velocities in
  efforts <- ask limb_joint_efforts ;;
  let robot_joint_efforts := values efforts in
  let obs :=
    Np.concatenate gripper_pos (Np.concatenate gripper_ori
      (Np.concatenate gripper_lvel (Np.concatenate gripper_avel
        (Np.concatenate gripper_force (Np.concatenate gripper_torque
          (Np.concatenate robot_joint_angles
            (Np.concatenate robot_joint_velocities robot_joint_efforts))))))) in
  ret obs.

Definition observation_space : M Box :=
  obs <- get_observation ;;
  ret (BoxUnbounded (length obs)).

Definition joint_position_space : M Box :=
  let low := [-3.0503; -3.8095; -3.0426; -3.0439; -2.9761; -2.9761; -4.7124] in
  let high := [3.0503; 2.2736; 3.0426; 3.0439; 2.9761; 2.9761; 4.7124] in
  ret (BoxBounds low high).

(** The loop of [_send_incremental_position_command]:
    [index = int(j[-1])],
    [commands[j] = np.clip(p + jpos[j], low[index], high[index])]. *)
Fixpoint position_targets (items : dict) (jpos : dict) (joint_limits : Box)
    (commands : dict) : Result dict :=
  match items with
  | [] => ok commands
  | (j, p) :: rest =>
      (index_ <- joint_number j ;;
       d <- getitem jpos j ;;
       lo <- index (low joint_limits) index_ ;;
       hi <- index (high joint_limits) index_ ;;
       position_targets rest jpos joint_limits
         (dict_set commands j (Np.clip1 (p + d) lo hi)))%res
  end.

Definition _send_incremental_position_command (jpos : dict) : M unit :=
  current_joint_angles <- ask limb_joint_angles ;;
  joint_limits <- joint_position_space ;;
  commands <- lift (position_targets current_joint_angles jpos joint_limits []) ;;
  call (set_joint_positions commands).

(** The locals [lower_bounds] and [upper_bounds] of [action_space]: the
    method never binds them before its loop. *)
Record bounds : Type := {
  lower_bounds : option (list Q);
  upper_bounds : option (list Q)
}.

(** Outcome of a loop body that may [return]. *)
Inductive flow (R L : Type) : Type :=
| Return (r : R)
| Next (l : L).
Arguments Return {R L} r.
Arguments Next {R L} l.

Definition action_space_body (s : Sawyer) (joint : string) (loc : bounds)
    : Result (flow Box bounds) :=
  (joint_idx <- list_index (joint_names (_joint_limits s)) joint ;;
   if String.eqb (_control_mode s) "position" then
     ok (Return (BoxBounds (Np.full 7 (-0.02)) (Np.full 7 0.02)))
   else if String.eqb (_control_mode s) "velocity" then
     let velocity_limit :=
       Np.scale (slice1 (velocity (_joint_limits s)) joint_idx) 0.1 in
     lb <- read_local "lower_bounds" (lower_bounds loc) ;;
     let loc := {| lower_bounds := Some (Np.concatenate lb (Np.neg velocity_limit));
                   upper_bounds := upper_bounds loc |} in
     ub <- read_local "upper_bounds" (upper_bounds loc) ;;
     ok (Next {| lower_bounds := lower_bounds loc;
                 upper_bounds := Some (Np.concatenate ub velocity_limit) |})
   else if String.eqb (_control_mode s) "effort" then
     let effort_limit := slice1 (effort (_joint_limits s)) joint_idx in
     lb <- read_local "lower_bounds" (lower_bounds loc) ;;
     let loc := {| lower_bounds := Some (Np.concatenate lb (Np.neg effort_limit));
                   upper_bounds := upper_bounds loc |} in
     ub <- read_local "upper_bounds" (upper_bounds loc) ;;
     ok (Next {| lower_bounds := lower_bounds loc;
                 upper_bounds := Some (Np.concatenate ub effort_limit) |})
   else
     raise (ValueError (Message (unknown_mode_message (_control_mode s)))))%res.

Fixpoint action_space_loop (s : Sawyer) (joints : list string) (loc : bounds)
    : Result (flow Box bounds) :=
  match joints with
  | [] => ok (Next loc)
  | joint :: rest =>
      (r <- action_space_body s joint loc ;;
       match r with
       | Return b => ok (Return b)
       | Next loc' => action_space_loop s rest loc'
       end)%res
  end.

Definition action_space_of (s : Sawyer) : Result Box :=
  (r <- action_space_loop s (_used_joints s)
         {| lower_bounds := None; upper_bounds := None |} ;;
   match r with
   | Return b => ok b
   | Next loc =>
       lb <- read_local "lower_bounds" (lower_bounds loc) ;;
       ub <- read_local "upper_bounds" (upper_bounds loc) ;;
       ok (BoxBounds (Np.concatenate lb [0]) (Np.concatenate ub [100]))
   end)%res.

Definition action_space : M Box :=
  s <- get_self (fun s => s) ;;
  lift (action_space_of s).

(** The loop of [send_command]: [joint_commands[joint] = commands[i]],
    [i += 1]. *)
Fixpoint assign_joint_commands (joints : list string) (commands : list Q)
    (i : nat) (joint_commands : dict) : Result dict :=
  match joints with
  | [] => ok joint_commands
  | joint :: rest =>
      (c <- index commands i ;;
       assign_joint_commands rest commands (S i)
         (dict_set joint_commands joint c))%res
  end.

Definition send_command (commands : list Q) : M unit :=
  action_space <- action_space ;;
  commands <- lift (Np.clip commands (low action_space) (high action_space)) ;;
  used_joints <- get_self _used_joints ;;
  joint_commands <- lift (assign_joint_commands used_joints commands 0 []) ;;
  control_mode <- get_self _control_mode ;;
  if String.eqb control_mode "position" then
    _send_incremental_position_command joint_commands
  else if String.eqb control_mode "velocity" then
    _set_limb_joint_velocities joint_commands
  else if String.eqb control_mode "effort" then
    _set_limb_joint_torques joint_commands
  else ret tt.
  (* self._set_gripper_position(commands[7]) is commented out in the source *)

(** ["right_j{}".format(i)] *)
Definition right_j (i : nat) : string :=
  ("right_j" ++ NilEmpty.string_of_uint (Nat.to_uint i))%string.

(** The list comprehension [[d[k] for k in ks]]. *)
Fixpoint getitems (d : dict) (ks : list string) : Result (list Q) :=
  match ks with
  | [] => ok []
  | k :: rest =>
      (v <- getitem d k ;;
       vs <- getitems d rest ;;
       ok (v :: vs))%res
  end.

Definition joint_positions : M (list Q) :=
  current_positions <- ask limb_joint_angles ;;
  jpos <- lift (getitems current_positions (map right_j (seq 0 7))) ;;
  ret jpos.

(** geometry_msgs/Pose; [Pose()] is all zeros. *)
Record Pose : Type := { pose_position : Point; pose_orientation : Quaternion }.

Definition Pose_new : Pose :=
  {| pose_position := {| px := 0; py := 0; pz := 0 |};
     pose_orientation := {| qx := 0; qy := 0; qz := 0; qw := 0 |} |}.

(** What [Limb.ik_request] answers: joint angles, or [False]. *)
Inductive IKAnswer : Type :=
| ik_solution (joint_angles : dict)
| ik_failure.

(** The calls of [move_gripper_to_position]; the inverse-kinematics solver
    is not part of the [World], so the method takes it as an argument and
    returns its calls. *)
Inductive GripperMove : Type :=
| ik_request (pose : Pose) (end_point : string)
| move_to_joint_positions_untimed (positions : IKAnswer).

Definition move_gripper_to_position (solver : Pose -> string -> IKAnswer)
    (position : list Q) (w : World) : Result (list GripperMove) :=
  let desired_pose := Pose_new in
  let current_pose := limb_endpoint_pose w in
  let ori q := {| pose_position := pose_position desired_pose;
                  pose_orientation := q |} in
  let desired_pose :=
    ori {| qx := qx (pose_orientation desired_pose);
           qy := qy (pose_orientation desired_pose);
           qz := qz (pose_orientation desired_pose);
           qw := qw (orientation current_pose) |} in
  let ori q := {| pose_position := pose_position desired_pose;
                  pose_orientation := q |} in
  let desired_pose :=
    ori {| qx := qx (orientation current_pose);
           qy := qy (pose_orientation desired_pose);
           qz := qz (pose_orientation desired_pose);
           qw := qw (pose_orientation desired_pose) |} in
  let ori q := {| pose_position := pose_position desired_pose;
                  pose_orientation := q |} in
  let desired_pose :=
    ori {| qx := qx (pose_orientation desired_pose);
           qy := qy (orientation current_pose);
           qz := qz (pose_orientation desired_pose);
           qw := qw (pose_orientation desired_pose) |} in
  let ori q := {| pose_position := pose_position desired_pose;
                  pose_orientation := q |} in
  let desired_pose :=
    ori {| qx := qx (pose_orientation desired_pose);
           qy := qy (pose_orientation desired_pose);
           qz := qz (orientation current_pose);
           qw := qw (pose_orientation desired_pose) |} in
  (x <- index position 0 ;;
   let pos p := {| pose_position := p;
                   pose_orientation := pose_orientation desired_pose |} in
   let desired_pose :=
     pos {| px := x; py := py (pose_position desired_pose);
            pz := pz (pose_position desired_pose) |} in
   y <- index position 1 ;;
   let pos p := {| pose_position := p;
                   pose_orientation := pose_orientation desired_pose |} in
   let desired_pose :=
     pos {| px := px (pose_position desired_pose); py := y;
            pz := pz (pose_position desired_pose) |} in
   z <- index position 2 ;;
   let pos p := {| pose_position := p;
                   pose_orientation := pose_orientation desired_pose |} in
   let desired_pose :=
     pos {| px := px (pose_position desired_pose);
            py := py (pose_position desired_pose); pz := z |} in
   let joint_angles := solver desired_pose "right_hand" in
   ok [ik_request desired_pose "right_hand";
       move_to_joint_positions_untimed joint_angles])%res.

(** ** A concrete robot: the seven joints of Sawyer's right arm *)

Module Example.

Definition right_joints : list string :=
  ["right_j0"; "right_j1"; "right_j2"; "right_j3"; "right_j4"; "right_j5";
   "right_j6"].

Definition zeros : dict := map (fun j => (j, 0)) right_joints.

Definition origin : Point := {| px := 0; py := 0; pz := 0 |}.

Definition limits : JointLimits :=
  {| joint_names := right_joints;
     position_lower := [-3.0503; -3.8095; -3.0426; -3.0439; -2.9761; -2.9761; -4.7124];
     position_upper := [3.0503; 2.2736; 3.0426; 3.0439; 2.9761; 2.9761; 4.7124];
     velocity := [1.74; 1.328; 1.957; 1.957; 3.485; 3.485; 4.545];
     accel := [3.5; 2.5; 5; 5; 5; 5; 5];
     effort := [80; 80; 40; 40; 9; 9; 9] |}.

(** A robot at rest with all angles zero, not shut down; the validity
    service answers [verdict]. *)
Definition world (verdict : bool) : World :=
  {| limb_joint_angles := zeros;
     limb_joint_velocities := zeros;
     limb_joint_efforts := zeros;
     limb_endpoint_pose :=
       {| position := origin;
          orientation := {| qx := 0; qy := 0; qz := 0; qw := 1 |} |};
     limb_endpoint_velocity := {| linear := origin; angular := origin |};
     limb_endpoint_effort := {| force := origin; torque := origin |};
     rospy_is_shutdown := false;
     joint_limits_topic := limits;
     state_validity := fun _ _ => verdict |}.

(** [Sawyer(initial_joint_pos, 'right_arm', control_mode)] on that robot. *)
Definition adapter (initial_joint_pos : dict) (control_mode : string) : St :=
  snd (construct (world true) initial_joint_pos "right_arm" control_mode).

End Example.

(** ** Notions used in the statements *)

(** The request the safety methods build from a joint-angle map. *)
Definition robot_state_of (d : dict) : RobotState :=
  {| joint_state_name := keys d; joint_state_position := values d |}.

(** The state after one more logged call, adapter untouched. *)
Definition logged (st : St) (new : list Call) : St :=
  {| self := self st; log := log st ++ new |}.

(** The documented layout of an observation. *)
Definition observation_layout (w : World) : list Q :=
  np_array_point (position (limb_endpoint_pose w))
  ++ np_array_quaternion (orientation (limb_endpoint_pose w))
  ++ np_array_point (linear (limb_endpoint_velocity w))
  ++ np_array_point (angular (limb_endpoint_velocity w))
  ++ np_array_point (force (limb_endpoint_effort w))
  ++ np_array_point (torque (limb_endpoint_effort w))
  ++ values (limb_joint_angles w)
  ++ values (limb_joint_velocities w)
  ++ values (limb_joint_efforts w).

(** The limb reports [N] joints. *)
Definition limb_reports (w : World) (N : nat) : Prop :=
  length (limb_joint_angles w) = N
  /\ length (limb_joint_velocities w) = N
  /\ length (limb_joint_efforts w) = N.

(** The configuration an adapter is built with. *)
Definition same_configuration (s s' : Sawyer) : Prop :=
  _control_mode s' = _control_mode s
  /\ _used_joints s' = _used_joints s
  /\ _joint_limits s' = _joint_limits s.

Definition is_joint_write (c : Call) : bool :=
  match c with
  | set_joint_positions _ | set_joint_velocities _ | set_joint_torques _ => true
  | _ => false
  end.

Definition is_gripper_call (c : Call) : bool :=
  match c with
  | gripper_open | gripper_set_position _ => true
  | _ => false
  end.

Definition supported_mode (mode : string) : Prop :=
  mode = "position" \/ mode = "velocity" \/ mode = "effort".

(** [m] leaves the adapter's fields alone. *)
Definition keeps_self {A} (m : M A) : Prop :=
  forall w st, self (snd (m w st)) = self st.

(** [m] only adds calls satisfying [P] to the log. *)
Definition emits_only {A} (P : Call -> bool) (m : M A) : Prop :=
  forall w st, exists new,
    log (snd (m w st)) = log st ++ new /\ forallb P new = true.

(** The static per-joint position bounds of [joint_position_space]. *)
Definition static_low : list Q :=
  [-3.0503; -3.8095; -3.0426; -3.0439; -2.9761; -2.9761; -4.7124].
Definition static_high : list Q :=
  [3.0503; 2.2736; 3.0426; 3.0439; 2.9761; 2.9761; 4.7124].

(** The command vector after the clip to the position action space (seven
    times the interval from -0.02 to 0.02; a vector of one entry is
    broadcast). *)
Definition clipped_deltas (commands : list Q) : list Q :=
  map (fun c => Np.clip1 c (-0.02) 0.02) (Np.broadcast_to 7 commands).

(** The delta commanded for joint [j]: the entry of the clipped vector at the
    place of [j] in the joint-iteration order. *)
Definition commanded_delta (used : list string) (deltas : list Q) (j : string) : Q :=
  match find_index used j with
  | Some i => nth i deltas 0
  | None => 0
  end.

(** The static bound selected by the digit that ends the joint's name. *)
Definition static_bound (bounds : list Q) (j : string) : Q :=
  match joint_number j with
  | inr k => nth k bounds 0
  | inl _ => 0
  end.

(** The target the code sends: current angle plus delta, clipped. *)
Definition incremental_target (used : list string) (deltas : list Q)
    (j : string) (p : Q) : Q :=
  Np.clip1 (p + commanded_delta used deltas j)
    (static_bound static_low j) (static_bound static_high j).

(** The target in the words of the specification: current angle plus 0.1
    times the delta, clipped. *)
Definition damped_target (used : list string) (deltas : list Q)
    (j : string) (p : Q) : Q :=
  Np.clip1 (p + 0.1 * commanded_delta used deltas j)
    (static_bound static_low j) (static_bound static_high j).

Definition position_command (used : list string) (deltas : list Q)
    (angles : dict) : dict :=
  map (fun jp => (fst jp, incremental_target used deltas (fst jp) (snd jp))) angles.

(** The steps of [send_command] before the position path go through: the
    action-space request (a first controlled joint, listed in the
    joint-limits message), the clip (seven commands, or one) and the
    assignment of commands to joints (at most seven of them). *)
Definition reaches_position_path (s : Sawyer) (commands : list Q) : Prop :=
  (exists joint rest,
      _used_joints s = joint :: rest
      /\ In joint (joint_names (_joint_limits s)))
  /\ (length commands = 7%nat \/ length commands = 1%nat)
  /\ (length (_used_joints s) <= 7)%nat.

(** The joint's name ends in a digit that indexes the static bounds. *)
Definition numbered_joint (j : string) : Prop :=
  exists k, joint_number j = ok k /\ (k < 7)%nat.

(** What [action_space] comes to, read off its first loop iteration. *)
Definition action_space_table (s : Sawyer) : Result Box :=
  match _used_joints s with
  | [] => raise (UnboundLocalError "lower_bounds")
  | joint :: _ =>
      match find_index (joint_names (_joint_limits s)) joint with
      | None => raise (ValueError (NotInList joint))
      | Some _ =>
          if String.eqb (_control_mode s) "position" then
            ok (BoxBounds (Np.full 7 (-0.02)) (Np.full 7 0.02))
          else if String.eqb (_control_mode s) "velocity"
                  || String.eqb (_control_mode s) "effort" then
            raise (UnboundLocalError "lower_bounds")
          else
            raise (ValueError (Message (unknown_mode_message (_control_mode s))))
      end
  end.





(** The example robot with other joint angles reported by the limb. *)
Definition world_reporting (angles : dict) : World :=
  {| limb_joint_angles := angles;
     limb_joint_velocities := limb_joint_velocities (Example.world true);
     limb_joint_efforts := limb_joint_efforts (Example.world true);
     limb_endpoint_pose := limb_endpoint_pose (Example.world true);
     limb_endpoint_velocity := limb_endpoint_velocity (Example.world true);
     limb_endpoint_effort := limb_endpoint_effort (Example.world true);
     rospy_is_shutdown := false;
     joint_limits_topic := Example.limits;
     state_validity := fun _ _ => true |}.

(** ** Dictionaries *)

Section Dict.

Lemma dict_get_in_keys (d : dict) (k : string) :
  In k (keys d) -> exists v, dict_get d k = Some v.
Proof.
  induction d as [|[k' v'] d IH]; simpl; [tauto|].
  intros [->|H].
  - rewrite String.eqb_refl. eauto.
  - destruct (String.eqb k k'); eauto.
Qed.

Lemma dict_get_not_in_keys (d : dict) (k : string) :
  ~ In k (keys d) -> dict_get d k = None.
Proof.
  induction d as [|[k' v'] d IH]; simpl; [reflexivity|].
  intros H. destruct (String.eqb_spec k k') as [->|_].
  - exfalso; auto.
  - apply IH; auto.
Qed.

Lemma dict_get_some_in_keys (d : dict) (k : string) (v : Q) :
  dict_get d k = Some v -> In k (keys d).
Proof.
  induction d as [|[k' v'] d IH]; simpl; [discriminate|].
  destruct (String.eqb_spec k k') as [->|_]; auto.
Qed.

(** Looking the keys of a well-formed dict up, in order, gives its
    values. *)
Lemma lookup_keys_values (d : dict) :
  dict_wf d ->
  Forall2 (fun k v => dict_get d k = Some v) (keys d) (values d).
Proof.
  unfold dict_wf.
  induction d as [|[k v] d IH]; simpl; intros Hnd; [constructor|].
  inversion Hnd as [|? ? Hnotin Hnd']; subst.
  constructor.
  - now rewrite String.eqb_refl.
  - specialize (IH Hnd').
    assert (Hk : Forall (fun k' => k' <> k) (keys d)).
    { rewrite Forall_forall. intros k' Hin ->. auto. }
    clear Hnd Hnotin Hnd'. revert IH Hk.
    generalize (keys d) (values d).
    induction 1; intros Hk; constructor; inversion Hk; subst; auto.
    destruct (String.eqb_spec x k); [contradiction|assumption].
Qed.

Lemma fill_joint_state_lookup (joints : list string) (d : dict) (ps : list Q) :
  Forall2 (fun k v => dict_get d k = Some v) joints ps ->
  forall rs,
    fill_joint_state joints d rs
    = ok {| joint_state_name := joint_state_name rs ++ joints;
            joint_state_position := joint_state_position rs ++ ps |}.
Proof.
  induction 1 as [|k v joints ps Hk _ IH]; intros rs; simpl.
  - now rewrite !app_nil_r; destruct rs.
  - unfold getitem. rewrite Hk. simpl. rewrite IH. simpl.
    now rewrite <- !app_assoc.
Qed.

Lemma fill_joint_state_request (d : dict) :
  dict_wf d ->
  fill_joint_state (keys d) d RobotState_new = ok (robot_state_of d).
Proof.
  intros Hwf.
  now rewrite (fill_joint_state_lookup _ _ _ (lookup_keys_values _ Hwf)).
Qed.

End Dict.

(** ** C6: the safety methods *)

(** C6. [safety_check] (on the joint angles the limb reports) and
    [safety_predict] (on any joint-angle map) build the robot-state request
    from the map's joint names and positions, query the validity service
    once with the configured planning group, and return the verdict of the
    service as it is; the adapter state is not touched and nothing else is
    called. *)
Theorem safety_methods_return_service_verdict
    (w : World) (st : St) (joint_angles : dict) :
  dict_wf (limb_joint_angles w) ->
  dict_wf joint_angles ->
  let group := _moveit_group (self st) in
  let verdict_on d :=
    (ok (state_validity w (robot_state_of d) group),
     logged st [get_state_validity (robot_state_of d) group]) in
  safety_check w st = verdict_on (limb_joint_angles w)
  /\ safety_predict joint_angles w st = verdict_on joint_angles.
Proof.
  intros Hw Hd group verdict_on. subst verdict_on group.
  unfold safety_check, safety_predict, bind, ask, lift, get_self, call, ret, ok.
  cbv beta iota zeta.
  rewrite (fill_joint_state_request _ Hw), (fill_joint_state_request _ Hd).
  split; reflexivity.
Qed.

Lemma safety_methods_return_service_verdict_witness :
  safety_check (Example.world false) (Example.adapter Example.zeros "position")
  = (ok false,
     logged (Example.adapter Example.zeros "position")
       [get_state_validity (robot_state_of Example.zeros) "right_arm"])
  /\ safety_predict [("right_j0", 0.5)] (Example.world false)
       (Example.adapter Example.zeros "position")
     = (ok false,
        logged (Example.adapter Example.zeros "position")
          [get_state_validity (robot_state_of [("right_j0", 0.5)]) "right_arm"]).
Proof.
  apply (safety_methods_return_service_verdict (Example.world false)
           (Example.adapter Example.zeros "position") [("right_j0", 0.5)]).
  - unfold dict_wf. simpl.
    repeat (constructor; [simpl; intuition discriminate|]). constructor.
  - unfold dict_wf. simpl.
    repeat (constructor; [simpl; intuition discriminate|]). constructor.
Defined.

(** ** C7: reset *)

(** C7. When the external system reports shutdown, [reset] returns normally
    and leaves the state, log included, as it was: no arm motion and no
    gripper command.  Otherwise it commands the arm to the initial joint
    configuration given at construction (timeout 5.0), opens the gripper and
    sleeps 0.01. *)
Theorem reset_is_noop_on_shutdown (w : World) (st : St) :
  reset w st =
  if rospy_is_shutdown w then (ok tt, st)
  else (ok tt,
        logged st [move_to_joint_positions (_initial_joint_pos (self st)) 5.0;
                   gripper_open; rospy_sleep 0.01]).
Proof.
  unfold reset, _move_to_start_position, bind, ask, get_self, call, ret, logged.
  destruct (rospy_is_shutdown w); simpl; [reflexivity|].
  now rewrite <- !app_assoc.
Qed.

(** ** C4: the observation vector *)

(** C4 (amended). With [N] the number of joints the limb reports (in its
    angle, velocity and effort maps), [get_observation] returns a vector of
    length 3+4+3+3+3+3+N+N+N laid out as gripper position, orientation,
    linear velocity, angular velocity, force, torque, joint angles, joint
    velocities, joint efforts.  The controlled joints play no part. *)
Theorem get_observation_layout_and_length (w : World) (st : St) (N : nat) :
  limb_reports w N ->
  get_observation w st = (ok (observation_layout w), st)
  /\ length (observation_layout w) = (3 + 4 + 3 + 3 + 3 + 3 + N + N + N)%nat.
Proof.
  intros (Ha & Hv & He). split.
  - reflexivity.
  - unfold observation_layout, values.
    rewrite !length_app, !length_map, Ha, Hv, He. simpl. lia.
Qed.

Lemma get_observation_layout_and_length_witness :
  get_observation (Example.world true)
    (Example.adapter [("right_j0", 0)] "position")
  = (ok (observation_layout (Example.world true)),
     Example.adapter [("right_j0", 0)] "position")
  /\ length (observation_layout (Example.world true))
     = (3 + 4 + 3 + 3 + 3 + 3 + 7 + 7 + 7)%nat.
Proof.
  apply (get_observation_layout_and_length (Example.world true)
           (Example.adapter [("right_j0", 0)] "position") 7).
  repeat split; reflexivity.
Defined.

(** C4 as stated fails: an adapter controlling one joint of the seven-joint
    arm observes all seven joints, 40 entries and not 3+4+3+3+3+3+1+1+1. *)
Lemma get_observation_length_ignores_controlled_joints :
  let st := Example.adapter [("right_j0", 0)] "position" in
  let N := length (_used_joints (self st)) in
  N = 1%nat
  /\ exists obs,
       get_observation (Example.world true) st = (ok obs, st)
       /\ length obs = 40%nat
       /\ length obs <> (3 + 4 + 3 + 3 + 3 + 3 + N + N + N)%nat.
Proof.
  cbv zeta. split; [reflexivity|].
  exists (observation_layout (Example.world true)).
  split; [reflexivity|].
  split; [reflexivity|]. vm_compute. discriminate.
Qed.

(** ** Frame rules of the method monad *)

Section Frame.

Lemma keeps_ret {A} (a : A) : keeps_self (ret a).
Proof. now intros w st. Qed.

Lemma keeps_throw {A} (e : Exn) : keeps_self (@throw A e).
Proof. now intros w st. Qed.

Lemma keeps_lift {A} (r : Result A) : keeps_self (lift r).
Proof. now intros w st. Qed.

Lemma keeps_ask {A} (f : World -> A) : keeps_self (ask f).
Proof. now intros w st. Qed.

Lemma keeps_get_self {A} (f : Sawyer -> A) : keeps_self (get_self f).
Proof. now intros w st. Qed.

Lemma keeps_call (c : Call) : keeps_self (call c).
Proof. now intros w st. Qed.

Lemma keeps_bind {A B} (m : M A) (k : A -> M B) :
  keeps_self m -> (forall a, keeps_self (k a)) -> keeps_self (bind m k).
Proof.
  intros Hm Hk w st. unfold bind.
  specialize (Hm w st).
  destruct (m w st) as [[e|a] st']; simpl in *; [assumption|].
  now rewrite Hk.
Qed.

Lemma emits_ret {A} P (a : A) : emits_only P (ret a).
Proof. intros w st. exists []. now rewrite app_nil_r. Qed.

Lemma emits_throw {A} P (e : Exn) : emits_only P (@throw A e).
Proof. intros w st. exists []. now rewrite app_nil_r. Qed.

Lemma emits_lift {A} P (r : Result A) : emits_only P (lift r).
Proof. intros w st. exists []. now rewrite app_nil_r. Qed.

Lemma emits_ask {A} P (f : World -> A) : emits_only P (ask f).
Proof. intros w st. exists []. now rewrite app_nil_r. Qed.

Lemma emits_get_self {A} P (f : Sawyer -> A) : emits_only P (get_self f).
Proof. intros w st. exists []. now rewrite app_nil_r. Qed.

Lemma emits_call P (c : Call) : P c = true -> emits_only P (call c).
Proof. intros Hc w st. exists [c]. simpl. now rewrite Hc. Qed.

Lemma emits_bind {A B} P (m : M A) (k : A -> M B) :
  emits_only P m -> (forall a, emits_only P (k a)) -> emits_only P (bind m k).
Proof.
  intros Hm Hk w st. unfold bind.
  destruct (Hm w st) as (new & Hlog & Hnew).
  destruct (m w st) as [[e|a] st']; simpl in *; [eauto|].
  destruct (Hk a w st') as (new' & Hlog' & Hnew').
  exists (new ++ new'). rewrite Hlog', Hlog, app_assoc. split; [reflexivity|].
  now rewrite forallb_app, Hnew, Hnew'.
Qed.

End Frame.

(** Goals [keeps_self m] and [emits_only P m] for straight-line methods. *)
Ltac frame_step :=
  match goal with
  | |- keeps_self (bind _ _) => apply keeps_bind; [|intros ?]
  | |- keeps_self (if ?b then _ else _) => destruct b
  | |- keeps_self _ =>
      first [apply keeps_ret | apply keeps_throw | apply keeps_lift
            | apply keeps_ask | apply keeps_get_self | apply keeps_call]
  | |- emits_only _ (bind _ _) => apply emits_bind; [|intros ?]
  | |- emits_only _ (if ?b then _ else _) => destruct b
  | |- emits_only _ _ =>
      first [apply emits_ret | apply emits_throw | apply emits_lift
            | apply emits_ask | apply emits_get_self
            | apply emits_call; reflexivity]
  end.
Ltac frame := cbv zeta; repeat frame_step.

Section Methods.

Lemma keeps_safety_check : keeps_self safety_check.
Proof. unfold safety_check. frame. Qed.

Lemma keeps_safety_predict d : keeps_self (safety_predict d).
Proof. unfold safety_predict. frame. Qed.

Lemma keeps_reset : keeps_self reset.
Proof. unfold reset, _move_to_start_position. frame. Qed.

Lemma keeps_get_observation : keeps_self get_observation.
Proof. unfold get_observation. frame. Qed.

Lemma keeps_observation_space : keeps_self observation_space.
Proof. unfold observation_space. frame. apply keeps_get_observation. Qed.

Lemma keeps_joint_position_space : keeps_self joint_position_space.
Proof. unfold joint_position_space. frame. Qed.

Lemma keeps_action_space : keeps_self action_space.
Proof. unfold action_space. frame. Qed.

Lemma keeps_send_command commands : keeps_self (send_command commands).
Proof.
  unfold send_command, _send_incremental_position_command,
    _set_limb_joint_velocities, _set_limb_joint_torques, joint_position_space,
    action_space.
  frame.
Qed.

Lemma send_command_emits_joint_writes commands :
  emits_only is_joint_write (send_command commands).
Proof.
  unfold send_command, _send_incremental_position_command,
    _set_limb_joint_velocities, _set_limb_joint_torques, joint_position_space,
    action_space.
  frame.
Qed.

(** What [__init__] stores. *)
Lemma for_each_append_used_joints (w : World) (joints : list string) :
  forall s l,
    for_each joints
      (fun joint => set_self (fun s => set_used_joints (_used_joints s ++ [joint]) s))
      w {| self := s; log := l |}
    = (ok tt, {| self := set_used_joints (_used_joints s ++ joints) s; log := l |}).
Proof.
  induction joints as [|j joints IH]; intros s l; simpl.
  - unfold ret. rewrite app_nil_r. now destruct s.
  - unfold bind at 1. unfold set_self at 1. simpl.
    rewrite IH. unfold set_used_joints. simpl. now rewrite <- app_assoc.
Qed.

Lemma construct_stores_arguments (w : World) (initial_joint_pos : dict)
    (moveit_group control_mode : string) :
  construct w initial_joint_pos moveit_group control_mode
  = (ok tt,
     {| self := {| _initial_joint_pos := initial_joint_pos;
                   _control_mode := control_mode;
                   _used_joints := keys initial_joint_pos;
                   _joint_limits := joint_limits_topic w;
                   _moveit_group := moveit_group |};
        log := [] |}).
Proof.
  unfold construct, __init__.
  unfold bind at 1. unfold set_self at 1. cbv beta iota.
  unfold bind at 1. unfold set_self at 1. cbv beta iota.
  unfold bind at 1. unfold set_self at 1. cbv beta iota.
  unfold bind at 1. simpl self. simpl log.
  rewrite for_each_append_used_joints.
  reflexivity.
Qed.

End Methods.

(** ** C8: the configuration is fixed at construction *)

(** C8. Construction stores the control mode, the controlled joints (the
    keys of the initial joint map, in their order) and the joint-limits
    message read at startup; after that [reset], [get_observation],
    [send_command], [safety_check], [safety_predict] and the three space
    properties leave all three as they are, whether they return or raise. *)
Theorem configuration_fixed_at_construction
    (w w' : World) (initial_joint_pos : dict) (moveit_group control_mode : string)
    (st : St) (commands : list Q) (joint_angles : dict) :
  (let s := self (snd (construct w initial_joint_pos moveit_group control_mode)) in
   _control_mode s = control_mode
   /\ _used_joints s = keys initial_joint_pos
   /\ _joint_limits s = joint_limits_topic w)
  /\ same_configuration (self st) (self (snd (reset w' st)))
  /\ same_configuration (self st) (self (snd (get_observation w' st)))
  /\ same_configuration (self st) (self (snd (send_command commands w' st)))
  /\ same_configuration (self st) (self (snd (safety_check w' st)))
  /\ same_configuration (self st) (self (snd (safety_predict joint_angles w' st)))
  /\ same_configuration (self st) (self (snd (action_space w' st)))
  /\ same_configuration (self st) (self (snd (observation_space w' st)))
  /\ same_configuration (self st) (self (snd (joint_position_space w' st))).
Proof.
  split.
  - rewrite construct_stores_arguments. simpl. auto.
  - unfold same_configuration.
    rewrite keeps_reset, keeps_get_observation, keeps_send_command,
      keeps_safety_check, keeps_safety_predict, keeps_action_space,
      keeps_observation_space, keeps_joint_position_space.
    repeat split; reflexivity.
Qed.

(** ** C9: send_command and the gripper *)

(** C9. Whatever the control mode and the command vector, and whether it
    returns or raises, every call [send_command] makes is a joint-level
    write (position, velocity or torque): it issues no gripper command. *)
Theorem send_command_never_commands_gripper
    (w : World) (st : St) (commands : list Q) :
  exists new,
    log (snd (send_command commands w st)) = log st ++ new
    /\ Forall (fun c => is_joint_write c = true /\ is_gripper_call c = false) new.
Proof.
  destruct (send_command_emits_joint_writes commands w st) as (new & Hlog & Hnew).
  exists new. split; [assumption|].
  rewrite forallb_forall in Hnew. rewrite Forall_forall.
  intros c Hc. specialize (Hnew c Hc).
  destruct c; simpl in *; try discriminate; auto.
Qed.

(** ** The action space *)

Section ActionSpace.

Lemma find_index_in (xs : list string) (x : string) :
  In x xs -> exists k, find_index xs x = Some k.
Proof.
  induction xs as [|y xs IH]; simpl; [tauto|].
  intros Hin. destruct (String.eqb_spec y x) as [_|Hne]; [eauto|].
  destruct Hin as [Heq|Hin]; [contradiction|].
  destruct (IH Hin) as (k & ->). simpl. eauto.
Qed.

Lemma find_index_not_in (xs : list string) (x : string) :
  ~ In x xs -> find_index xs x = None.
Proof.
  induction xs as [|y xs IH]; simpl; [reflexivity|].
  intros Hnin. destruct (String.eqb_spec y x) as [Heq|_].
  - exfalso; auto.
  - rewrite IH; auto.
Qed.

Lemma list_index_in (xs : list string) (x : string) :
  In x xs -> exists k, list_index xs x = ok k.
Proof.
  intros Hin. unfold list_index.
  destruct (find_index_in xs x Hin) as (k & ->). eauto.
Qed.

Lemma list_index_not_in (xs : list string) (x : string) :
  ~ In x xs -> list_index xs x = raise (ValueError (NotInList x)).
Proof.
  intros Hnin. unfold list_index.
  now rewrite (find_index_not_in xs x Hnin).
Qed.

(** A first controlled joint the joint-limits message does not list stops
    [action_space] at the list lookup, in every control mode. *)
Lemma action_space_unlisted_joint (s : Sawyer) (joint : string) (rest : list string) :
  _used_joints s = joint :: rest ->
  ~ In joint (joint_names (_joint_limits s)) ->
  action_space_of s = raise (ValueError (NotInList joint)).
Proof.
  intros Hused Hnin. unfold action_space_of. rewrite Hused. simpl.
  unfold action_space_body. now rewrite (list_index_not_in _ _ Hnin).
Qed.

Lemma action_space_position (s : Sawyer) (joint : string) (rest : list string) :
  _control_mode s = "position" ->
  _used_joints s = joint :: rest ->
  In joint (joint_names (_joint_limits s)) ->
  action_space_of s = ok (BoxBounds (Np.full 7 (-0.02)) (Np.full 7 0.02)).
Proof.
  intros Hmode Hused Hin. unfold action_space_of. rewrite Hused. simpl.
  unfold action_space_body.
  destruct (list_index_in _ _ Hin) as (k & ->). simpl.
  now rewrite Hmode.
Qed.

Lemma action_space_unknown_mode (s : Sawyer) (joint : string) (rest : list string) :
  ~ supported_mode (_control_mode s) ->
  _used_joints s = joint :: rest ->
  In joint (joint_names (_joint_limits s)) ->
  action_space_of s
  = raise (ValueError (Message (unknown_mode_message (_control_mode s)))).
Proof.
  intros Hmode Hused Hin. unfold action_space_of. rewrite Hused. simpl.
  unfold action_space_body.
  destruct (list_index_in _ _ Hin) as (k & ->). simpl.
  unfold supported_mode in Hmode.
  destruct (String.eqb_spec (_control_mode s) "position"); [tauto|].
  destruct (String.eqb_spec (_control_mode s) "velocity"); [tauto|].
  destruct (String.eqb_spec (_control_mode s) "effort"); [tauto|].
  reflexivity.
Qed.

(** In velocity and effort mode the accumulators [lower_bounds] and
    [upper_bounds] are read before anything binds them: the property never
    returns a space. *)
Lemma action_space_accumulators_unbound (s : Sawyer) :
  _control_mode s = "velocity" \/ _control_mode s = "effort" ->
  action_space_of s = raise (UnboundLocalError "lower_bounds")
  \/ exists joint, action_space_of s = raise (ValueError (NotInList joint)).
Proof.
  intros Hmode. unfold action_space_of.
  destruct (_used_joints s) as [|joint rest]; simpl; [now left|].
  unfold action_space_body.
  destruct (list_index (joint_names (_joint_limits s)) joint) as [e|k] eqn:Hidx.
  - right. exists joint. unfold list_index in Hidx.
    destruct (find_index _ _); [discriminate|].
    injection Hidx as <-. reflexivity.
  - left. simpl. destruct Hmode as [-> | ->]; reflexivity.
Qed.

Lemma send_command_accumulators_unbound (w : World) (st : St) (commands : list Q) :
  _control_mode (self st) = "velocity" \/ _control_mode (self st) = "effort" ->
  exists e, send_command commands w st = (raise e, st).
Proof.
  intros Hmode. unfold send_command, action_space, bind, get_self, lift.
  simpl.
  destruct (action_space_accumulators_unbound _ Hmode) as [-> | (j & ->)];
    eexists; reflexivity.
Qed.

End ActionSpace.

(** ** C3: an unknown control mode *)

(** C3 (amended). With a control mode outside position, velocity and effort,
    and a first controlled joint that the joint-limits message lists,
    construction succeeds and stores the mode unchecked; the first request
    of [action_space] raises the [ValueError] naming the mode. *)
Theorem unknown_mode_surfaces_at_action_space
    (w w' : World) (joint : string) (angle : Q) (rest : dict)
    (moveit_group control_mode : string) :
  ~ supported_mode control_mode ->
  In joint (joint_names (joint_limits_topic w)) ->
  let built := construct w ((joint, angle) :: rest) moveit_group control_mode in
  fst built = ok tt
  /\ _control_mode (self (snd built)) = control_mode
  /\ action_space w' (snd built)
     = (raise (ValueError (Message (unknown_mode_message control_mode))),
        snd built).
Proof.
  intros Hmode Hin built. subst built.
  rewrite construct_stores_arguments. simpl fst. simpl snd.
  split; [reflexivity|]. split; [reflexivity|].
  unfold action_space, bind, get_self, lift. simpl.
  match goal with
  | |- (action_space_of ?s, _) = _ =>
      now rewrite (action_space_unknown_mode s joint (keys rest) Hmode eq_refl Hin)
  end.
Qed.

Lemma unknown_mode_surfaces_at_action_space_witness :
  let built :=
    construct (Example.world true) (("right_j0", 0) :: [("right_j1", 0)])
      "right_arm" "impedance" in
  fst built = ok tt
  /\ _control_mode (self (snd built)) = "impedance"
  /\ action_space (Example.world true) (snd built)
     = (raise (ValueError (Message (unknown_mode_message "impedance"))),
        snd built).
Proof.
  apply (unknown_mode_surfaces_at_action_space (Example.world true)
           (Example.world true) "right_j0" 0 [("right_j1", 0)]
           "right_arm" "impedance").
  - unfold supported_mode. intuition discriminate.
  - simpl. auto.
Defined.

(** C3 as stated fails: with an unknown mode and a non-empty set of
    controlled joints whose first joint the joint-limits message does not
    list, [action_space] raises the list lookup's [ValueError], which does
    not name the mode. *)
Lemma unknown_mode_unlisted_joint_raises_lookup_error :
  let built :=
    construct (Example.world true) [("left_j0", 0)] "right_arm" "impedance" in
  fst built = ok tt
  /\ _used_joints (self (snd built)) <> []
  /\ ~ supported_mode (_control_mode (self (snd built)))
  /\ fst (action_space (Example.world true) (snd built))
     = raise (ValueError (NotInList "left_j0"))
  /\ fst (action_space (Example.world true) (snd built))
     <> raise (ValueError (Message (unknown_mode_message "impedance"))).
Proof.
  cbv zeta. split; [reflexivity|]. split; [discriminate|].
  split; [unfold supported_mode; simpl; intuition discriminate|].
  split; [reflexivity|]. vm_compute. discriminate.
Qed.

(** ** C2 and C5: velocity and effort mode *)

(** C2 (the code fails it). On the seven-joint arm, requesting
    [action_space] in velocity mode and in effort mode raises
    [UnboundLocalError] for [lower_bounds] instead of returning the bounds
    derived from the hardware limits; position mode returns the static
    seven-fold interval from -0.02 to 0.02. *)
Theorem action_space_raises_in_velocity_and_effort_mode :
  let request mode :=
    fst (action_space (Example.world true) (Example.adapter Example.zeros mode)) in
  request "velocity" = raise (UnboundLocalError "lower_bounds")
  /\ request "effort" = raise (UnboundLocalError "lower_bounds")
  /\ request "position" = ok (BoxBounds (Np.full 7 (-0.02)) (Np.full 7 0.02)).
Proof. cbv zeta. repeat split; reflexivity. Qed.

(** C5 (the code fails it). On the seven-joint arm, [send_command] in
    velocity mode and in effort mode raises [UnboundLocalError] at its
    action-space request and issues no velocity or torque write: state and
    log are as before. *)
Theorem send_command_raises_in_velocity_and_effort_mode :
  let commands := [0.1; 0.1; 0.1; 0.1; 0.1; 0.1; 0.1; 50] in
  let send mode :=
    send_command commands (Example.world true) (Example.adapter Example.zeros mode) in
  send "velocity"
  = (raise (UnboundLocalError "lower_bounds"), Example.adapter Example.zeros "velocity")
  /\ send "effort"
     = (raise (UnboundLocalError "lower_bounds"), Example.adapter Example.zeros "effort")
  /\ log (Example.adapter Example.zeros "velocity") = []
  /\ log (Example.adapter Example.zeros "effort") = [].
Proof. cbv zeta. repeat split; reflexivity. Qed.

(** ** The position path *)

Section PositionPath.

Lemma dict_set_fresh (d : dict) (k : string) (v : Q) :
  ~ In k (keys d) -> dict_set d k v = d ++ [(k, v)].
Proof.
  induction d as [|[k' v'] d IH]; simpl; intros Hnin; [reflexivity|].
  destruct (String.eqb_spec k k') as [->|_].
  - exfalso; auto.
  - rewrite IH; auto.
Qed.

Lemma dict_set_keys (d : dict) (k : string) (v : Q) (x : string) :
  In x (keys (dict_set d k v)) <-> x = k \/ In x (keys d).
Proof.
  induction d as [|[k' v'] d IH]; simpl.
  - intuition.
  - destruct (String.eqb_spec k k') as [->|_]; simpl.
    + intuition.
    + rewrite IH. intuition.
Qed.

Lemma assign_joint_commands_keys (joints : list string) (commands : list Q) :
  forall i acc d,
    assign_joint_commands joints commands i acc = ok d ->
    forall x, In x (keys d) <-> In x (keys acc) \/ In x joints.
Proof.
  induction joints as [|j joints IH]; simpl; intros i acc d Hd x.
  - injection Hd as <-. intuition.
  - destruct (index commands i) as [e|c]; simpl in Hd; [discriminate|].
    rewrite (IH _ _ _ Hd x), dict_set_keys. intuition.
Qed.

Lemma assign_joint_commands_ok (joints : list string) (commands : list Q) :
  forall i acc,
    (i + length joints <= length commands)%nat ->
    exists d, assign_joint_commands joints commands i acc = ok d.
Proof.
  induction joints as [|j joints IH]; simpl; intros i acc Hlen; [eauto|].
  unfold index.
  destruct (nth_error commands i) as [c|] eqn:Hc.
  - simpl. apply IH. lia.
  - apply nth_error_None in Hc. lia.
Qed.

Lemma skipn_nth_error {A} (xs : list A) (i : nat) (x : A) :
  nth_error xs i = Some x -> skipn i xs = x :: skipn (S i) xs.
Proof.
  revert xs. induction i as [|i IH]; intros [|y xs]; simpl; try discriminate.
  - now intros [= ->].
  - intros H. now rewrite (IH xs H).
Qed.

Lemma assign_joint_commands_combine (joints : list string) (commands : list Q) :
  forall i acc,
    NoDup joints ->
    (forall x, In x joints -> ~ In x (keys acc)) ->
    (i + length joints <= length commands)%nat ->
    assign_joint_commands joints commands i acc
    = ok (acc ++ combine joints (skipn i commands)).
Proof.
  induction joints as [|j joints IH]; simpl; intros i acc Hnd Hfresh Hlen.
  - now rewrite app_nil_r.
  - inversion Hnd as [|? ? Hj Hnd']; subst.
    unfold index.
    destruct (nth_error commands i) as [c|] eqn:Hc;
      [|apply nth_error_None in Hc; lia].
    simpl. rewrite dict_set_fresh by (apply Hfresh; auto).
    rewrite IH; [| assumption | | lia].
    + rewrite <- app_assoc. simpl. now rewrite (skipn_nth_error _ _ _ Hc).
    + intros x Hx. unfold keys. rewrite map_app, in_app_iff. simpl.
      intros [Hin|[<-|[]]]; [apply (Hfresh x); auto | auto].
Qed.

Lemma dict_get_combine_index (joints : list string) (j : string) :
  In j joints ->
  forall deltas, (length joints <= length deltas)%nat ->
    dict_get (combine joints deltas) j = Some (commanded_delta joints deltas j).
Proof.
  unfold commanded_delta.
  induction joints as [|y joints IH]; simpl; [tauto|].
  intros Hin [|c deltas] Hlen; simpl in Hlen; [lia|]. simpl.
  rewrite String.eqb_sym.
  destruct (String.eqb_spec y j) as [_|Hne]; [reflexivity|].
  destruct Hin as [Heq|Hin]; [contradiction|].
  rewrite (IH Hin deltas) by lia.
  destruct (find_index joints j); reflexivity.
Qed.

Lemma clip_position_space (commands : list Q) (a b : Q) :
  length commands = 7%nat \/ length commands = 1%nat ->
  Np.clip commands (Np.full 7 a) (Np.full 7 b)
  = ok (map (fun c => Np.clip1 c a b) (Np.broadcast_to 7 commands)).
Proof.
  intros [Hlen|Hlen].
  - do 8 (destruct commands as [|? commands]; try discriminate Hlen).
    reflexivity.
  - do 2 (destruct commands as [|? commands]; try discriminate Hlen).
    reflexivity.
Qed.

Lemma joint_position_space_static (w : World) (st : St) :
  joint_position_space w st = (ok (BoxBounds static_low static_high), st).
Proof. reflexivity. Qed.

(** [send_command] in position mode, step by step. *)
Lemma send_command_position_steps (w : World) (st : St) (commands : list Q) :
  _control_mode (self st) = "position" ->
  send_command commands w st =
  match action_space_of (self st) with
  | inl e => (inl e, st)
  | inr box =>
      match Np.clip commands (low box) (high box) with
      | inl e => (inl e, st)
      | inr deltas =>
          match assign_joint_commands (_used_joints (self st)) deltas 0 [] with
          | inl e => (inl e, st)
          | inr jpos =>
              match position_targets (limb_joint_angles w) jpos
                      (BoxBounds static_low static_high) [] with
              | inl e => (inl e, st)
              | inr targets => (ok tt, logged st [set_joint_positions targets])
              end
          end
      end
  end.
Proof.
  intros Hmode.
  unfold send_command, action_space, _send_incremental_position_command,
    joint_position_space, bind, get_self, lift, ask, call, ret, ok.
  cbv beta iota zeta.
  destruct (action_space_of (self st)) as [e|box]; [reflexivity|].
  destruct (Np.clip commands (low box) (high box)) as [e|deltas]; [reflexivity|].
  destruct (assign_joint_commands _ deltas 0 []) as [e|jpos]; [reflexivity|].
  rewrite Hmode. simpl.
  fold static_low. fold static_high.
  destruct (position_targets _ jpos _ []) as [e|targets]; reflexivity.
Qed.

Lemma clipped_deltas_length (commands : list Q) :
  length commands = 7%nat \/ length commands = 1%nat ->
  length (clipped_deltas commands) = 7%nat.
Proof.
  unfold clipped_deltas. rewrite length_map. intros [Hlen|Hlen].
  - do 8 (destruct commands as [|? commands]; try discriminate Hlen).
    reflexivity.
  - do 2 (destruct commands as [|? commands]; try discriminate Hlen).
    reflexivity.
Qed.

Lemma static_bounds_numbered (j : string) :
  numbered_joint j ->
  exists k,
    joint_number j = ok k
    /\ index static_low k = ok (static_bound static_low j)
    /\ index static_high k = ok (static_bound static_high j).
Proof.
  intros (k & Hk & Hlt). exists k. unfold static_bound, index. rewrite Hk.
  simpl. split; [reflexivity|].
  rewrite (nth_error_nth' static_low 0), (nth_error_nth' static_high 0);
    [split; reflexivity | exact Hlt | exact Hlt].
Qed.

(** The loop of the position path builds one target per limb joint, in the
    limb's order, when every lookup goes through. *)
Lemma position_targets_map (jpos : dict) (delta : string -> Q) :
  forall items acc,
    NoDup (keys items) ->
    (forall j, In j (keys items) -> ~ In j (keys acc)) ->
    (forall j, In j (keys items) ->
       numbered_joint j /\ dict_get jpos j = Some (delta j)) ->
    position_targets items jpos (BoxBounds static_low static_high) acc
    = ok (acc ++ map (fun jp =>
                        (fst jp,
                         Np.clip1 (snd jp + delta (fst jp))
                           (static_bound static_low (fst jp))
                           (static_bound static_high (fst jp)))) items).
Proof.
  induction items as [|[j p] items IH]; simpl; intros acc Hnd Hfresh Hlook.
  - now rewrite app_nil_r.
  - inversion Hnd as [|? ? Hj Hnd']; subst.
    destruct (Hlook j (or_introl eq_refl)) as (Hnum & Hget).
    destruct (static_bounds_numbered j Hnum) as (k & -> & Hlo & Hhi).
    simpl. unfold getitem. rewrite Hget. simpl.
    rewrite Hlo, Hhi. simpl.
    rewrite dict_set_fresh by (apply Hfresh; auto).
    rewrite IH; [now rewrite <- app_assoc | assumption | | auto].
    intros x Hx. unfold keys. rewrite map_app, in_app_iff. simpl.
    intros [Hin|[<-|[]]]; [apply (Hfresh x); auto | auto].
Qed.

(** A limb joint without a commanded delta stops the loop. *)
Lemma position_targets_missing_key (jpos : dict) (limits : Box) (j : string) :
  dict_get jpos j = None ->
  forall items acc,
    In j (keys items) ->
    exists e, position_targets items jpos limits acc = raise e.
Proof.
  intros Hnone. induction items as [|[j' p'] items IH]; simpl; intros acc Hin;
    [tauto|].
  destruct (joint_number j') as [e|k]; simpl; [now eexists|].
  unfold getitem.
  destruct (dict_get jpos j') as [d|] eqn:Hget; simpl; [|now eexists].
  destruct (index (low limits) k) as [e|lo]; simpl; [now eexists|].
  destruct (index (high limits) k) as [e|hi]; simpl; [now eexists|].
  destruct Hin as [->|Hin]; [congruence|]. apply IH, Hin.
Qed.

(** The first limb joint without a commanded delta raises [KeyError], when
    the joints before it are numbered and commanded. *)
Lemma position_targets_key_error (jpos : dict) (j : string) (p : Q) (post : dict) :
  dict_get jpos j = None ->
  (exists k, joint_number j = ok k) ->
  forall pre acc,
    (forall j', In j' (keys pre) -> numbered_joint j' /\ In j' (keys jpos)) ->
    position_targets (pre ++ (j, p) :: post) jpos
      (BoxBounds static_low static_high) acc
    = raise (KeyError j).
Proof.
  intros Hnone (k & Hk).
  induction pre as [|[j' p'] pre IH]; simpl; intros acc Hpre.
  - rewrite Hk. simpl. unfold getitem. now rewrite Hnone.
  - destruct (Hpre j' (or_introl eq_refl)) as (Hnum & Hin).
    destruct (static_bounds_numbered j' Hnum) as (k' & -> & Hlo & Hhi).
    destruct (dict_get_in_keys _ _ Hin) as (d & Hd).
    simpl. unfold getitem. rewrite Hd. simpl. rewrite Hlo, Hhi. simpl.
    apply IH. auto.
Qed.

Lemma send_command_position_uncontrolled_joint
    (w : World) (st : St) (commands : list Q) (j : string) :
  _control_mode (self st) = "position" ->
  In j (keys (limb_joint_angles w)) ->
  ~ In j (_used_joints (self st)) ->
  exists e, send_command commands w st = (raise e, st).
Proof.
  intros Hmode Hlimb Hused.
  rewrite (send_command_position_steps w st commands Hmode).
  destruct (action_space_of (self st)) as [e|box]; [now eexists|].
  destruct (Np.clip commands (low box) (high box)) as [e|deltas]; [now eexists|].
  destruct (assign_joint_commands _ deltas 0 []) as [e|jpos] eqn:Hjpos; [now eexists|].
  assert (Hnone : dict_get jpos j = None).
  { apply dict_get_not_in_keys.
    rewrite (assign_joint_commands_keys _ _ _ _ _ Hjpos j). simpl. tauto. }
  destruct (position_targets_missing_key jpos
              (BoxBounds static_low static_high) j Hnone _ [] Hlimb) as (e & ->).
  now eexists.
Qed.

(** The 0.1 factor lives in [_set_limb_joint_positions], which takes
    absolute targets, moves a tenth of the way towards them and asks
    [safety_predict] first; [send_command] does not go through it. *)
Remark set_limb_joint_positions_damps_and_gates :
  let st := Example.adapter Example.zeros "position" in
  _set_limb_joint_positions [("right_j0", 1)] (Example.world true) st
  = (ok tt,
     logged st
       [get_state_validity (robot_state_of [("right_j0", 0 + (1 - 0) * 0.1)])
          "right_arm";
        set_joint_positions [("right_j0", 0 + (1 - 0) * 0.1)]])
  /\ _set_limb_joint_positions [("right_j0", 1)] (Example.world false) st
     = (ok tt,
        logged st
          [get_state_validity (robot_state_of [("right_j0", 0 + (1 - 0) * 0.1)])
             "right_arm"]).
Proof. cbv zeta. split; reflexivity. Qed.

End PositionPath.

(** ** C1: the position command *)

(** C1 (amended). In position mode, when the steps before the position path
    go through and every joint the limb reports is controlled and numbered,
    [send_command] issues one absolute position command: for each limb
    joint, the current angle plus the action-space-clipped commanded delta
    (taken as it is, with no 0.1 factor), clipped to the joint's static
    position bounds. *)
Theorem position_command_adds_clipped_delta
    (w : World) (st : St) (commands : list Q) :
  _control_mode (self st) = "position" ->
  reaches_position_path (self st) commands ->
  NoDup (_used_joints (self st)) ->
  dict_wf (limb_joint_angles w) ->
  Forall (fun j => In j (_used_joints (self st)) /\ numbered_joint j)
    (keys (limb_joint_angles w)) ->
  send_command commands w st
  = (ok tt,
     logged st
       [set_joint_positions
          (position_command (_used_joints (self st)) (clipped_deltas commands)
             (limb_joint_angles w))]).
Proof.
  intros Hmode ((joint & rest & Hused & Hlisted) & Hlen & Hseven) Hnd Hwf Hlimb.
  rewrite (send_command_position_steps w st commands Hmode).
  rewrite (action_space_position _ joint rest Hmode Hused Hlisted).
  cbv beta iota delta [ok low high].
  rewrite (clip_position_space commands _ _ Hlen).
  fold (clipped_deltas commands).
  pose proof (clipped_deltas_length commands Hlen) as Hdl.
  cbv beta iota delta [ok].
  rewrite assign_joint_commands_combine;
    [| assumption | intros x _ [] | simpl; lia].
  cbv beta iota delta [ok]. rewrite app_nil_l. change (skipn 0 ?l) with l.
  rewrite (position_targets_map _
             (commanded_delta (_used_joints (self st)) (clipped_deltas commands)));
    [reflexivity | exact Hwf | intros x _ [] |].
  intros j Hj. rewrite Forall_forall in Hlimb.
  destruct (Hlimb j Hj) as (Hin & Hnum). split; [assumption|].
  apply dict_get_combine_index; [assumption | lia].
Qed.

Lemma position_command_adds_clipped_delta_witness :
  let st := Example.adapter Example.zeros "position" in
  let commands := [0.05; -0.05; 0.01; 0; 0; 0; 0] in
  send_command commands (Example.world true) st
  = (ok tt,
     logged st
       [set_joint_positions
          (position_command Example.right_joints (clipped_deltas commands)
             Example.zeros)]).
Proof.
  apply (position_command_adds_clipped_delta (Example.world true)
           (Example.adapter Example.zeros "position")
           [0.05; -0.05; 0.01; 0; 0; 0; 0]).
  - reflexivity.
  - split; [|split].
    + exists "right_j0", (tl Example.right_joints). split; [reflexivity|].
      simpl. auto.
    + left. reflexivity.
    + simpl. lia.
  - simpl. repeat (constructor; [simpl; intuition discriminate|]). constructor.
  - unfold dict_wf. simpl.
    repeat (constructor; [simpl; intuition discriminate|]). constructor.
  - simpl.
    repeat (constructor;
            [split; [simpl; tauto
                    | eexists; split; [reflexivity | simpl; lia]]|]).
    constructor.
Defined.

(** C1 as stated fails: with all angles at zero and every delta at the
    action-space bound 0.02, the command sent for each joint is 0.02, the
    current angle plus the delta, and not the damped 0 + 0.1 * 0.02. *)
Lemma position_target_is_not_damped :
  let st := Example.adapter Example.zeros "position" in
  let commands := [0.02; 0.02; 0.02; 0.02; 0.02; 0.02; 0.02] in
  send_command commands (Example.world true) st
  = (ok tt,
     logged st
       [set_joint_positions (map (fun j => (j, 0.02)) Example.right_joints)])
  /\ Forall (fun j =>
       ~ (0.02 == damped_target (_used_joints (self st))
                    (clipped_deltas commands) j 0))
       Example.right_joints.
Proof.
  cbv zeta. split; [reflexivity|].
  repeat (constructor; [vm_compute; discriminate|]). constructor.
Qed.

(** ** C10: limb joints that are not controlled *)

(** C10 (amended). In position mode the position path looks every joint the
    limb reports up in the commanded deltas, whose keys are the controlled
    joints.  So whenever some limb joint is not controlled, [send_command]
    raises and leaves state and log as they were: no position command
    reaches the hardware.  It returns normally only when every limb joint is
    controlled.  The exception is the [KeyError] of the first limb joint
    that is not controlled when the steps before the position path go
    through, the limb joints before it are numbered and its own name ends
    in a digit. *)
Theorem position_path_needs_every_limb_joint
    (w : World) (st : St) (commands : list Q) :
  _control_mode (self st) = "position" ->
  (forall j,
      In j (keys (limb_joint_angles w)) -> ~ In j (_used_joints (self st)) ->
      exists e, send_command commands w st = (raise e, st))
  /\ (is_ok (fst (send_command commands w st)) = true ->
      forall j,
        In j (keys (limb_joint_angles w)) -> In j (_used_joints (self st)))
  /\ (forall pre j p post,
        limb_joint_angles w = pre ++ (j, p) :: post ->
        (forall j', In j' (keys pre) ->
                    In j' (_used_joints (self st)) /\ numbered_joint j') ->
        ~ In j (_used_joints (self st)) ->
        (exists k, joint_number j = ok k) ->
        reaches_position_path (self st) commands ->
        send_command commands w st = (raise (KeyError j), st)).
Proof.
  intros Hmode. split; [|split].
  - intros j Hlimb Hused.
    exact (send_command_position_uncontrolled_joint w st commands j
             Hmode Hlimb Hused).
  - intros Hok j Hlimb.
    destruct (in_dec string_dec j (_used_joints (self st))) as [Hin|Hnin];
      [assumption|].
    destruct (send_command_position_uncontrolled_joint w st commands j
                Hmode Hlimb Hnin) as (e & He).
    rewrite He in Hok. discriminate Hok.
  - intros pre j p post Hangles Hpre Hused Hdigit
      ((joint & rest & Hjoints & Hlisted) & Hlen & Hseven).
    rewrite (send_command_position_steps w st commands Hmode).
    rewrite (action_space_position _ joint rest Hmode Hjoints Hlisted).
    cbv beta iota delta [ok low high].
    rewrite (clip_position_space commands _ _ Hlen).
    fold (clipped_deltas commands).
    pose proof (clipped_deltas_length commands Hlen) as Hdl.
    cbv beta iota delta [ok].
    destruct (assign_joint_commands_ok (_used_joints (self st))
                (clipped_deltas commands) 0 []) as (jpos & Hjpos);
      [simpl; lia|].
    rewrite Hjpos. cbv beta iota delta [ok].
    pose proof (assign_joint_commands_keys _ _ _ _ _ Hjpos) as Hkeys.
    rewrite Hangles.
    rewrite (position_targets_key_error jpos j p post); [reflexivity | | assumption |].
    + apply dict_get_not_in_keys. rewrite Hkeys. simpl. tauto.
    + intros j' Hj'. destruct (Hpre j' Hj') as (Hin & Hnum).
      split; [assumption|]. rewrite Hkeys. auto.
Qed.

Lemma position_path_needs_every_limb_joint_witness :
  let st := Example.adapter [("right_j0", 0); ("right_j1", 0)] "position" in
  let commands := [0.01; 0.01; 0; 0; 0; 0; 0] in
  send_command commands (Example.world true) st = (raise (KeyError "right_j2"), st).
Proof.
  refine (proj2 (proj2
    (position_path_needs_every_limb_joint (Example.world true)
       (Example.adapter [("right_j0", 0); ("right_j1", 0)] "position")
       [0.01; 0.01; 0; 0; 0; 0; 0] eq_refl))
    [("right_j0", 0); ("right_j1", 0)] "right_j2" 0
    (skipn 3 Example.zeros) eq_refl _ _ _ _).
  - simpl. intros j' [<-|[<-|[]]];
      (split; [tauto | eexists; split; [reflexivity | simpl; lia]]).
  - simpl. intuition discriminate.
  - eexists. reflexivity.
  - split; [|split].
    + exists "right_j0", ["right_j1"]. split; [reflexivity|]. simpl. auto.
    + left. reflexivity.
    + simpl. lia.
Defined.

(** C10 as stated fails: with two of the seven limb joints controlled and
    one command per controlled joint, [send_command] fails in the clip to the
    seven-fold action space, with the broadcast [ValueError] and not with a
    key-lookup error. *)
Lemma uncontrolled_joint_fails_before_key_lookup :
  let st := Example.adapter [("right_j0", 0); ("right_j1", 0)] "position" in
  let commands := [0.01; 0.01] in
  incl (_used_joints (self st)) (keys (limb_joint_angles (Example.world true)))
  /\ ~ incl (keys (limb_joint_angles (Example.world true))) (_used_joints (self st))
  /\ send_command commands (Example.world true) st
     = (raise (ValueError BroadcastShapes), st)
  /\ forall key,
       fst (send_command commands (Example.world true) st) <> raise (KeyError key).
Proof.
  cbv zeta. split; [|split; [|split]].
  - intros j. simpl. tauto.
  - intros Hincl. specialize (Hincl "right_j2"). simpl in Hincl.
    intuition discriminate.
  - reflexivity.
  - intros key. vm_compute. discriminate.
Qed.

(** ** Further properties of the action space and of send_command *)

Section Dispatch.

Lemma action_space_of_table (s : Sawyer) :
  action_space_of s = action_space_table s.
Proof.
  unfold action_space_of, action_space_table.
  destruct (_used_joints s) as [|joint rest]; [reflexivity|].
  simpl. unfold action_space_body, list_index.
  destruct (find_index (joint_names (_joint_limits s)) joint); [|reflexivity].
  simpl.
  destruct (String.eqb (_control_mode s) "position"); [reflexivity|].
  destruct (String.eqb (_control_mode s) "velocity"); [reflexivity|].
  destruct (String.eqb (_control_mode s) "effort"); reflexivity.
Qed.

Lemma action_space_of_ok (s : Sawyer) (box : Box) :
  action_space_of s = ok box ->
  _control_mode s = "position"
  /\ box = BoxBounds (Np.full 7 (-0.02)) (Np.full 7 0.02).
Proof.
  rewrite action_space_of_table. unfold action_space_table.
  destruct (_used_joints s) as [|joint rest]; [discriminate|].
  destruct (find_index _ joint); [|discriminate].
  destruct (String.eqb_spec (_control_mode s) "position") as [Hmode|_].
  - intros [= <-]. auto.
  - destruct (_ || _); discriminate.
Qed.

Lemma clip_position_space_shape (commands : list Q) (a b : Q) :
  length commands <> 7%nat -> length commands <> 1%nat ->
  Np.clip commands (Np.full 7 a) (Np.full 7 b)
  = raise (ValueError BroadcastShapes).
Proof.
  intros H7 H1. unfold Np.clip, Np.broadcast_dim. simpl length.
  destruct (Nat.eqb_spec (length commands) 7); [contradiction|].
  destruct (Nat.eqb_spec (length commands) 1); [contradiction|].
  reflexivity.
Qed.

Lemma assign_joint_commands_short (joints : list string) (commands : list Q) :
  forall i acc,
    (i <= length commands < i + length joints)%nat ->
    assign_joint_commands joints commands i acc = raise IndexError.
Proof.
  induction joints as [|j joints IH]; simpl; intros i acc Hlen; [lia|].
  unfold index.
  destruct (nth_error commands i) as [c|] eqn:Hc; [|reflexivity].
  simpl. apply IH.
  assert (i < length commands)%nat by (apply nth_error_Some; congruence).
  lia.
Qed.

Lemma clip1_saturated (a b x : Q) :
  Qle_bool a b = true -> Qle_bool b a = false ->
  Np.clip1 (Np.clip1 x a b) a b = Np.clip1 x a b.
Proof.
  intros Hab Hba. unfold Np.clip1, Np.maximum, Np.minimum.
  destruct (Qle_bool x a) eqn:Hxa.
  - rewrite Hab. destruct (Qle_bool a a); now rewrite Hab.
  - destruct (Qle_bool x b) eqn:Hxb.
    + now rewrite Hxa, Hxb.
    + rewrite Hba. now destruct (Qle_bool b b).
Qed.

Lemma broadcast_to_other_length (n : nat) (xs : list Q) :
  length xs <> 1%nat -> Np.broadcast_to n xs = xs.
Proof. destruct xs as [|x [|y xs]]; simpl; intros H; [reflexivity|lia|reflexivity]. Qed.

Lemma clip_saturated (commands : list Q) :
  Np.clip (clipped_deltas commands) (Np.full 7 (-0.02)) (Np.full 7 0.02)
  = Np.clip commands (Np.full 7 (-0.02)) (Np.full 7 0.02).
Proof.
  assert (Hcases : (length commands = 7%nat \/ length commands = 1%nat)
                   \/ (length commands <> 7%nat /\ length commands <> 1%nat)) by lia.
  destruct Hcases as [Hlen|(H7 & H1)].
  - pose proof (clipped_deltas_length commands Hlen) as Hd.
    rewrite (clip_position_space commands _ _ Hlen),
      (clip_position_space (clipped_deltas commands) _ _ (or_introl Hd)).
    f_equal. fold (clipped_deltas commands).
    rewrite (broadcast_to_other_length 7 (clipped_deltas commands))
      by (rewrite Hd; discriminate).
    unfold clipped_deltas. rewrite map_map. apply map_ext.
    intros x. now apply clip1_saturated.
  - assert (Hd : length (clipped_deltas commands) = length commands).
    { unfold clipped_deltas.
      now rewrite length_map, (broadcast_to_other_length 7 commands H1). }
    rewrite !clip_position_space_shape; try reflexivity; try assumption;
      now rewrite Hd.
Qed.

End Dispatch.

(** X8. The outcome of [action_space] is decided by the first controlled
    joint and the control mode alone: with no controlled joint it raises
    [UnboundLocalError] in every mode; a first joint the joint-limits message
    does not list raises the lookup's [ValueError] in every mode; otherwise
    position mode returns the seven-fold box, velocity and effort mode raise
    [UnboundLocalError], any other mode raises the [ValueError] naming it.
    Later joints are never looked at and the state is left as it was. *)
Theorem action_space_decided_by_first_joint (w : World) (st : St) :
  action_space w st = (action_space_table (self st), st).
Proof.
  unfold action_space, bind, get_self, lift. simpl.
  now rewrite action_space_of_table.
Qed.

(** X1. Whatever the mode, the world and the command vector, [send_command]
    either raises and leaves state and log as they were, or the adapter is
    in position mode and it makes exactly one call, an absolute position
    command: it never writes velocities or torques and never asks the
    validity service. *)
Theorem send_command_only_sets_joint_positions
    (w : World) (st : St) (commands : list Q) :
  (exists e, send_command commands w st = (raise e, st))
  \/ (_control_mode (self st) = "position"
      /\ exists targets,
           send_command commands w st
           = (ok tt, logged st [set_joint_positions targets])).
Proof.
  destruct (String.eqb_spec (_control_mode (self st)) "position") as [Hmode|Hmode].
  - rewrite (send_command_position_steps w st commands Hmode).
    destruct (action_space_of (self st)) as [e|box]; [left; now eexists|].
    destruct (Np.clip commands (low box) (high box)) as [e|deltas];
      [left; now eexists|].
    destruct (assign_joint_commands _ deltas 0 []) as [e|jpos];
      [left; now eexists|].
    destruct (position_targets _ jpos _ []) as [e|targets];
      [left; now eexists|].
    right. split; [assumption|]. now eexists.
  - left. unfold send_command, action_space, bind, get_self, lift. simpl.
    destruct (action_space_of (self st)) as [e|box] eqn:Hbox; [now eexists|].
    destruct (action_space_of_ok _ _ Hbox) as (Hpos & _). contradiction.
Qed.

(** X5. In position mode, once the action-space request goes through, a
    command vector whose length is neither 7 nor 1 (the eight entries of
    seven joints and a gripper, say) raises numpy's broadcast [ValueError]
    in the clip; nothing is sent. *)
Theorem send_command_rejects_other_lengths
    (w : World) (st : St) (commands : list Q) (joint : string) (rest : list string) :
  _control_mode (self st) = "position" ->
  _used_joints (self st) = joint :: rest ->
  In joint (joint_names (_joint_limits (self st))) ->
  length commands <> 7%nat ->
  length commands <> 1%nat ->
  send_command commands w st = (raise (ValueError BroadcastShapes), st).
Proof.
  intros Hmode Hused Hlisted H7 H1.
  rewrite (send_command_position_steps w st commands Hmode).
  rewrite (action_space_position _ joint rest Hmode Hused Hlisted).
  cbv beta iota delta [ok low high].
  now rewrite (clip_position_space_shape commands _ _ H7 H1).
Qed.

Lemma send_command_rejects_other_lengths_witness :
  let st := Example.adapter Example.zeros "position" in
  send_command [0.01; 0.01; 0.01; 0.01; 0.01; 0.01; 0.01; 50]
    (Example.world true) st
  = (raise (ValueError BroadcastShapes), st).
Proof.
  apply (send_command_rejects_other_lengths (Example.world true)
           (Example.adapter Example.zeros "position")
           [0.01; 0.01; 0.01; 0.01; 0.01; 0.01; 0.01; 50]
           "right_j0" (tl Example.right_joints)).
  - reflexivity.
  - reflexivity.
  - simpl. auto.
  - simpl. lia.
  - simpl. lia.
Defined.

(** X6. In position mode, with more than seven controlled joints and a
    command vector that passes the clip, the assignment of commands to
    joints runs past the seven clipped entries and raises [IndexError];
    nothing is sent. *)
Theorem send_command_rejects_more_than_seven_joints
    (w : World) (st : St) (commands : list Q) (joint : string) (rest : list string) :
  _control_mode (self st) = "position" ->
  _used_joints (self st) = joint :: rest ->
  In joint (joint_names (_joint_limits (self st))) ->
  length commands = 7%nat \/ length commands = 1%nat ->
  (7 < length (_used_joints (self st)))%nat ->
  send_command commands w st = (raise IndexError, st).
Proof.
  intros Hmode Hused Hlisted Hlen Hmany.
  rewrite (send_command_position_steps w st commands Hmode).
  rewrite (action_space_position _ joint rest Hmode Hused Hlisted).
  cbv beta iota delta [ok low high].
  rewrite (clip_position_space commands _ _ Hlen).
  fold (clipped_deltas commands). cbv beta iota delta [ok].
  rewrite assign_joint_commands_short; [reflexivity|].
  rewrite (clipped_deltas_length commands Hlen). simpl. lia.
Qed.

Lemma send_command_rejects_more_than_seven_joints_witness :
  let st := Example.adapter (Example.zeros ++ [("head_pan", 0)]) "position" in
  send_command [0; 0; 0; 0; 0; 0; 0] (Example.world true) st
  = (raise IndexError, st).
Proof.
  apply (send_command_rejects_more_than_seven_joints (Example.world true)
           (Example.adapter (Example.zeros ++ [("head_pan", 0)]) "position")
           [0; 0; 0; 0; 0; 0; 0]
           "right_j0" (tl Example.right_joints ++ ["head_pan"])).
  - reflexivity.
  - reflexivity.
  - simpl. auto.
  - left. reflexivity.
  - simpl. lia.
Defined.

(** X4. Commands saturate at the action-space bounds: sending a vector and
    sending its clipped version have the same outcome, in every mode and for
    every vector. *)
Theorem send_command_saturates (w : World) (st : St) (commands : list Q) :
  send_command (clipped_deltas commands) w st = send_command commands w st.
Proof.
  unfold send_command, action_space, bind, get_self, lift. simpl.
  destruct (action_space_of (self st)) as [e|box] eqn:Hbox; [reflexivity|].
  destruct (action_space_of_ok _ _ Hbox) as (_ & ->).
  cbv beta iota delta [low high].
  now rewrite clip_saturated.
Qed.

(** ** Where the position targets land *)

Section Targets.











(** What a normal return of [send_command] went through. *)
Lemma send_command_ok_inv (w : World) (st st' : St) (commands : list Q) :
  send_command commands w st = (ok tt, st') ->
  exists jpos targets,
    assign_joint_commands (_used_joints (self st)) (clipped_deltas commands) 0 []
    = ok jpos
    /\ position_targets (limb_joint_angles w) jpos
         (BoxBounds static_low static_high) [] = ok targets
    /\ st' = logged st [set_joint_positions targets].
Proof.
  intros Hsend.
  assert (Hbox : exists box, action_space_of (self st) = ok box).
  { revert Hsend. unfold send_command, action_space, bind, get_self, lift. simpl.
    destruct (action_space_of (self st)) as [e|box]; [discriminate|]. now eexists. }
  destruct Hbox as (box & Hbox).
  destruct (action_space_of_ok _ _ Hbox) as (Hmode & ->).
  rewrite (send_command_position_steps w st commands Hmode), Hbox in Hsend.
  cbv beta iota delta [ok low high] in Hsend.
  assert (Hlen : length commands = 7%nat \/ length commands = 1%nat).
  { assert (Hcases : (length commands = 7%nat \/ length commands = 1%nat)
                     \/ (length commands <> 7%nat /\ length commands <> 1%nat)) by lia.
    destruct Hcases as [?|(H7 & H1)]; [assumption|].
    rewrite (clip_position_space_shape commands _ _ H7 H1) in Hsend.
    discriminate. }
  rewrite (clip_position_space commands _ _ Hlen) in Hsend.
  fold (clipped_deltas commands) in Hsend. cbv beta iota delta [ok] in Hsend.
  destruct (assign_joint_commands _ (clipped_deltas commands) 0 [])
    as [e|jpos] eqn:Hjpos; [discriminate|].
  destruct (position_targets _ jpos _ []) as [e|targets] eqn:Htargets;
    [discriminate|].
  exists jpos, targets.
  split; [reflexivity|]. split; [exact Htargets|]. now injection Hsend as <-.
Qed.


End Targets.





(** ** Joint names *)

Section JointNames.



Lemma seq_split_at (i : nat) :
  (i < 7)%nat -> seq 0 7 = seq 0 i ++ i :: seq (S i) (6 - i).
Proof.
  intros Hi. do 7 (destruct i as [|i]; [reflexivity|]). lia.
Qed.



End JointNames.





(** ** joint_positions *)

Section JointPositions.

Lemma getitems_lookup (d : dict) (ks : list string) :
  (forall k, In k ks -> In k (keys d)) ->
  exists vs,
    getitems d ks = ok vs
    /\ Forall2 (fun k v => dict_get d k = Some v) ks vs.
Proof.
  induction ks as [|k ks IH]; simpl; intros Hks.
  - exists []. split; [reflexivity|constructor].
  - destruct (dict_get_in_keys d k) as (v & Hv); [auto|].
    destruct IH as (vs & Hvs & Hall); [auto|].
    exists (v :: vs). unfold getitem. rewrite Hv. simpl. rewrite Hvs.
    split; [reflexivity|]. now constructor.
Qed.

Lemma getitems_key_error (d : dict) (k : string) (post : list string) :
  ~ In k (keys d) ->
  forall pre,
    (forall k', In k' pre -> In k' (keys d)) ->
    getitems d (pre ++ k :: post) = raise (KeyError k).
Proof.
  intros Hk. induction pre as [|k' pre IH]; simpl; intros Hpre.
  - unfold getitem. now rewrite (dict_get_not_in_keys d k Hk).
  - destruct (dict_get_in_keys d k') as (v & Hv); [auto|].
    unfold getitem. rewrite Hv. simpl. rewrite IH; auto.
Qed.

Lemma dict_get_wf_in (d : dict) (k : string) (v : Q) :
  dict_wf d -> (dict_get d k = Some v <-> In (k, v) d).
Proof.
  unfold dict_wf. induction d as [|[k' v'] d IH]; simpl; intros Hnd.
  - split; [discriminate|tauto].
  - inversion Hnd as [|? ? Hnotin Hnd']; subst.
    destruct (String.eqb_spec k k') as [->|Hne].
    + split.
      * intros [= ->]. auto.
      * intros [[= ->]|Hin]; [reflexivity|].
        exfalso. apply Hnotin. unfold keys. apply in_map_iff.
        now exists (k', v).
    + rewrite (IH Hnd'). split; [auto|].
      intros [[= -> ->]|Hin]; [contradiction|assumption].
Qed.

Lemma dict_get_permutation (d d' : dict) (k : string) :
  dict_wf d -> dict_wf d' -> (forall x, In x d <-> In x d') ->
  dict_get d k = dict_get d' k.
Proof.
  intros Hd Hd' Hsame.
  destruct (dict_get d k) as [v|] eqn:Hv.
  - symmetry. apply (dict_get_wf_in d' k v Hd'), Hsame,
      (dict_get_wf_in d k v Hd), Hv.
  - destruct (dict_get d' k) as [v'|] eqn:Hv'; [|reflexivity].
    apply (dict_get_wf_in d' k v' Hd'), Hsame, (dict_get_wf_in d k v' Hd) in Hv'.
    congruence.
Qed.

Lemma getitems_ext (d d' : dict) (ks : list string) :
  (forall k, dict_get d k = dict_get d' k) ->
  getitems d ks = getitems d' ks.
Proof.
  intros Hsame. induction ks as [|k ks IH]; simpl; [reflexivity|].
  unfold getitem. now rewrite Hsame, IH.
Qed.

End JointPositions.

(** X11. When the limb reports right_j0 to right_j6, [joint_positions]
    returns their seven angles in the order of the joint numbers, looked up
    by name: further joints and the order of the limb's map play no part.
    It leaves the state alone and makes no call. *)
Theorem joint_positions_in_joint_order (w : World) (st : St) :
  (forall i, (i < 7)%nat -> In (right_j i) (keys (limb_joint_angles w))) ->
  exists jpos,
    joint_positions w st = (ok jpos, st)
    /\ length jpos = 7%nat
    /\ forall i, (i < 7)%nat ->
         dict_get (limb_joint_angles w) (right_j i) = Some (nth i jpos 0).
Proof.
  intros Hall.
  destruct (getitems_lookup (limb_joint_angles w) (map right_j (seq 0 7)))
    as (vs & Hvs & Hlook).
  { intros k Hk. apply in_map_iff in Hk. destruct Hk as (i & <- & Hi).
    apply in_seq in Hi. apply Hall. lia. }
  exists vs. unfold joint_positions, bind, ask, lift, ret. simpl.
  simpl in Hvs. rewrite Hvs. split; [reflexivity|].
  pose proof (Forall2_length Hlook) as Hlen. simpl in Hlen.
  split; [auto|].
  intros i Hi.
  do 8 (destruct vs as [|? vs]; try discriminate Hlen).
  cbn [map seq] in Hlook.
  repeat match goal with
         | H : Forall2 _ (_ :: _) (_ :: _) |- _ => inversion H; clear H; subst
         end.
  do 7 (destruct i as [|i]; [cbn [nth]; assumption|]). lia.
Qed.

Lemma joint_positions_in_joint_order_witness :
  let w := world_reporting (("head_pan", 3) :: rev (combine Example.right_joints
                                                  [0; 1; 2; 3; 4; 5; 6])) in
  let st := Example.adapter Example.zeros "position" in
  exists jpos,
    joint_positions w st = (ok jpos, st)
    /\ length jpos = 7%nat
    /\ forall i, (i < 7)%nat ->
         dict_get (limb_joint_angles w) (right_j i) = Some (nth i jpos 0).
Proof.
  apply (joint_positions_in_joint_order
           (world_reporting (("head_pan", 3) :: rev (combine Example.right_joints
                                                     [0; 1; 2; 3; 4; 5; 6])))
           (Example.adapter Example.zeros "position")).
  intros i Hi. do 7 (destruct i as [|i]; [simpl; tauto|]). lia.
Defined.

(** X12. When the limb does not report some joint among right_j0 to
    right_j6, [joint_positions] raises the [KeyError] of the lowest-numbered
    missing one. *)
Theorem joint_positions_missing_joint (w : World) (st : St) (i : nat) :
  (i < 7)%nat ->
  (forall i', (i' < i)%nat -> In (right_j i') (keys (limb_joint_angles w))) ->
  ~ In (right_j i) (keys (limb_joint_angles w)) ->
  joint_positions w st = (raise (KeyError (right_j i)), st).
Proof.
  intros Hi Hbefore Hmissing.
  unfold joint_positions, bind, ask, lift, ret. cbv beta iota delta [ok].
  rewrite (seq_split_at i Hi), map_app. simpl map.
  rewrite (getitems_key_error _ _ _ Hmissing); [reflexivity|].
  intros k Hk. apply in_map_iff in Hk. destruct Hk as (i' & <- & Hi').
  apply in_seq in Hi'. apply Hbefore. lia.
Qed.

Lemma joint_positions_missing_joint_witness :
  let w := world_reporting [("right_j1", 0); ("right_j0", 0); ("right_j3", 0)] in
  let st := Example.adapter Example.zeros "position" in
  joint_positions w st = (raise (KeyError "right_j2"), st).
Proof.
  apply (joint_positions_missing_joint
           (world_reporting [("right_j1", 0); ("right_j0", 0); ("right_j3", 0)])
           (Example.adapter Example.zeros "position") 2).
  - lia.
  - intros i' Hi'. do 2 (destruct i' as [|i']; [simpl; tauto|]). lia.
  - simpl. intuition discriminate.
Defined.

(** X13. [joint_positions] does not depend on the order in which the limb
    reports its joints: two limbs reporting the same angles, in any order,
    give the same outcome. *)
Theorem joint_positions_ignores_report_order (w w' : World) (st : St) :
  dict_wf (limb_joint_angles w) ->
  dict_wf (limb_joint_angles w') ->
  (forall x, In x (limb_joint_angles w) <-> In x (limb_joint_angles w')) ->
  joint_positions w st = joint_positions w' st.
Proof.
  intros Hw Hw' Hsame.
  unfold joint_positions, bind, ask, lift, ret. cbv beta iota delta [ok].
  rewrite (getitems_ext (limb_joint_angles w) (limb_joint_angles w'));
    [reflexivity|].
  intros k. now apply dict_get_permutation.
Qed.

Lemma joint_positions_ignores_report_order_witness :
  let st := Example.adapter Example.zeros "position" in
  joint_positions
    (world_reporting (combine Example.right_joints [0; 1; 2; 3; 4; 5; 6])) st
  = joint_positions
      (world_reporting (rev (combine Example.right_joints [0; 1; 2; 3; 4; 5; 6])))
      st.
Proof.
  apply (joint_positions_ignores_report_order
           (world_reporting (combine Example.right_joints [0; 1; 2; 3; 4; 5; 6]))
           (world_reporting (rev (combine Example.right_joints
                                    [0; 1; 2; 3; 4; 5; 6])))
           (Example.adapter Example.zeros "position")).
  - unfold dict_wf. simpl.
    repeat (constructor; [simpl; intuition discriminate|]). constructor.
  - unfold dict_wf. simpl.
    repeat (constructor; [simpl; intuition discriminate|]). constructor.
  - intros x. simpl. tauto.
Defined.

(** ** _set_limb_joint_positions *)

Section DampedPositions.




Lemma damp_joint_cmds_key_error (current : dict) (j : string) (post : list string) :
  ~ In j (keys current) ->
  forall pre cmds,
    (forall x, In x pre -> In x (keys cmds) /\ In x (keys current)) ->
    In j (keys cmds) ->
    damp_joint_cmds (pre ++ j :: post) current cmds = raise (KeyError j).
Proof.
  intros Hj. induction pre as [|x pre IH]; simpl; intros cmds Hpre Hin.
  - destruct (dict_get_in_keys cmds j Hin) as (c & Hc).
    unfold getitem. rewrite Hc, (dict_get_not_in_keys current j Hj). reflexivity.
  - destruct (Hpre x (or_introl eq_refl)) as (Hx & Hxc).
    destruct (dict_get_in_keys cmds x Hx) as (c & Hc).
    destruct (dict_get_in_keys current x Hxc) as (p & Hp).
    unfold getitem. rewrite Hc, Hp. simpl.
    apply IH.
    + intros y Hy. destruct (Hpre y (or_intror Hy)).
      split; [|assumption]. apply dict_set_keys. auto.
    + apply dict_set_keys. auto.
Qed.


End DampedPositions.



(** X10. When a commanded joint is not reported by the limb,
    [_set_limb_joint_positions] raises the [KeyError] of the first such
    joint before it asks the validity service: state and log are as they
    were. *)
Theorem set_limb_joint_positions_unreported_joint
    (w : World) (st : St) (joint_angle_cmds : dict)
    (pre : list string) (j : string) (post : list string) :
  keys joint_angle_cmds = pre ++ j :: post ->
  (forall x, In x pre -> In x (keys (limb_joint_angles w))) ->
  ~ In j (keys (limb_joint_angles w)) ->
  _set_limb_joint_positions joint_angle_cmds w st = (raise (KeyError j), st).
Proof.
  intros Hkeys Hpre Hj.
  unfold _set_limb_joint_positions, bind, ask, lift. cbv beta iota delta [ok].
  rewrite Hkeys, (damp_joint_cmds_key_error _ _ _ Hj); [reflexivity| |].
  - intros x Hx. split; [|auto]. rewrite Hkeys, in_app_iff. auto.
  - rewrite Hkeys, in_app_iff. simpl. auto.
Qed.

Lemma set_limb_joint_positions_unreported_joint_witness :
  let st := Example.adapter Example.zeros "position" in
  _set_limb_joint_positions [("right_j0", 1); ("head_pan", 1); ("right_j1", 1)]
    (Example.world true) st
  = (raise (KeyError "head_pan"), st).
Proof.
  apply (set_limb_joint_positions_unreported_joint (Example.world true)
           (Example.adapter Example.zeros "position")
           [("right_j0", 1); ("head_pan", 1); ("right_j1", 1)]
           ["right_j0"] "head_pan" ["right_j1"]).
  - reflexivity.
  - simpl. intros x [<-|[]]. auto.
  - simpl. intuition discriminate.
Defined.

(** ** Spaces, reset and the gripper move *)

(** X15. With [N] joints reported by the limb, [observation_space] is the
    unbounded box of shape 3+4+3+3+3+3+N+N+N, the length of the observation
    [get_observation] returns at that moment; it reads the hardware, leaves
    the state alone, makes no call and does not depend on the control mode
    or the controlled joints. *)
Theorem observation_space_follows_the_limb (w : World) (st : St) (N : nat) :
  limb_reports w N ->
  observation_space w st
  = (ok (BoxUnbounded (3 + 4 + 3 + 3 + 3 + 3 + N + N + N)), st)
  /\ exists obs,
       get_observation w st = (ok obs, st)
       /\ length obs = (3 + 4 + 3 + 3 + 3 + 3 + N + N + N)%nat.
Proof.
  intros (Ha & Hv & He).
  assert (Hlen : length (observation_layout w)
                 = (3 + 4 + 3 + 3 + 3 + 3 + N + N + N)%nat).
  { unfold observation_layout, values.
    rewrite !length_app, !length_map, Ha, Hv, He. simpl. lia. }
  split.
  - change (observation_space w st)
      with (ok (BoxUnbounded (length (observation_layout w))), st).
    now rewrite Hlen.
  - exists (observation_layout w). split; [reflexivity|exact Hlen].
Qed.

Lemma observation_space_follows_the_limb_witness :
  let st := Example.adapter [("right_j0", 0)] "velocity" in
  observation_space (Example.world true) st
  = (ok (BoxUnbounded (3 + 4 + 3 + 3 + 3 + 3 + 7 + 7 + 7)), st)
  /\ exists obs,
       get_observation (Example.world true) st = (ok obs, st)
       /\ length obs = (3 + 4 + 3 + 3 + 3 + 3 + 7 + 7 + 7)%nat.
Proof.
  apply (observation_space_follows_the_limb (Example.world true)
           (Example.adapter [("right_j0", 0)] "velocity") 7).
  repeat split; reflexivity.
Defined.

(** X16. [reset] on a freshly constructed adapter, when the external system
    is not shut down, moves the arm to exactly the joint map given to the
    constructor: construction and reset never check it against the limb, the
    joint limits, the control mode or the validity service, and construction
    itself makes no call. *)
Theorem reset_moves_to_the_constructor_map
    (w w' : World) (initial_joint_pos : dict) (moveit_group control_mode : string) :
  rospy_is_shutdown w' = false ->
  let built := construct w initial_joint_pos moveit_group control_mode in
  fst built = ok tt
  /\ log (snd built) = []
  /\ fst (reset w' (snd built)) = ok tt
  /\ log (snd (reset w' (snd built)))
     = [move_to_joint_positions initial_joint_pos 5.0; gripper_open;
        rospy_sleep 0.01].
Proof.
  intros Hup built. subst built. rewrite construct_stores_arguments.
  unfold reset, _move_to_start_position, bind, ask, get_self, call, ret.
  rewrite Hup. simpl. auto.
Qed.

Lemma reset_moves_to_the_constructor_map_witness :
  let built :=
    construct (Example.world true) [("left_j0", 9)] "right_arm" "impedance" in
  fst built = ok tt
  /\ log (snd built) = []
  /\ fst (reset (Example.world true) (snd built)) = ok tt
  /\ log (snd (reset (Example.world true) (snd built)))
     = [move_to_joint_positions [("left_j0", 9)] 5.0; gripper_open;
        rospy_sleep 0.01].
Proof.
  apply (reset_moves_to_the_constructor_map (Example.world true)
           (Example.world true) [("left_j0", 9)] "right_arm" "impedance").
  reflexivity.
Defined.

(** X17. [move_gripper_to_position] raises [IndexError] for a position of
    fewer than three entries, before the solver is asked or the arm moved.
    Otherwise it asks the solver, for the end point right_hand, for the pose
    made of the first three entries and the current orientation, and hands
    the answer to [move_to_joint_positions] as it is, a failed solve
    included; the validity service is not asked. *)
Theorem move_gripper_keeps_orientation
    (solver : Pose -> string -> IKAnswer) (position : list Q) (w : World) :
  move_gripper_to_position solver position w =
  match position with
  | x :: y :: z :: _ =>
      let desired_pose :=
        {| pose_position := {| px := x; py := y; pz := z |};
           pose_orientation :=
             {| qx := qx (orientation (limb_endpoint_pose w));
                qy := qy (orientation (limb_endpoint_pose w));
                qz := qz (orientation (limb_endpoint_pose w));
                qw := qw (orientation (limb_endpoint_pose w)) |} |} in
      ok [ik_request desired_pose "right_hand";
          move_to_joint_positions_untimed (solver desired_pose "right_hand")]
  | _ => raise IndexError
  end.
Proof.
  destruct position as [|x [|y [|z rest]]]; reflexivity.
Qed.

(** ** Which joints a position command addresses *)

Section Addressed.

Lemma position_targets_keys (jpos : dict) (limits : Box) :
  forall items acc res,
    position_targets items jpos limits acc = ok res ->
    NoDup (keys acc ++ keys items) ->
    keys res = keys acc ++ keys items.
Proof.
  induction items as [|[j p] items IH]; simpl; intros acc res Hres Hnd.
  - injection Hres as <-. now rewrite app_nil_r.
  - destruct (joint_number j) as [e|k]; simpl in Hres; [discriminate|].
    destruct (getitem jpos j) as [e|d]; simpl in Hres; [discriminate|].
    destruct (index (low limits) k) as [e|lo]; simpl in Hres; [discriminate|].
    destruct (index (high limits) k) as [e|hi]; simpl in Hres; [discriminate|].
    assert (Hfresh : ~ In j (keys acc)).
    { apply NoDup_remove_2 in Hnd. rewrite in_app_iff in Hnd. tauto. }
    rewrite (dict_set_fresh acc j _ Hfresh) in Hres.
    rewrite (IH _ _ Hres); unfold keys; rewrite map_app; simpl;
      rewrite <- app_assoc; [reflexivity|exact Hnd].
Qed.

End Addressed.

(** X18. A position command addresses the joints the limb reports, each once
    and in the limb's order, and no others: a controlled joint the limb does
    not report gets no target and its entry of the command vector is
    dropped. *)
Theorem position_command_addresses_limb_joints
    (w : World) (st st' : St) (commands : list Q) :
  dict_wf (limb_joint_angles w) ->
  send_command commands w st = (ok tt, st') ->
  exists targets,
    st' = logged st [set_joint_positions targets]
    /\ keys targets = keys (limb_joint_angles w).
Proof.
  intros Hwf Hsend.
  destruct (send_command_ok_inv _ _ _ _ Hsend) as (jpos & targets & _ & Htargets & ->).
  exists targets. split; [reflexivity|].
  exact (position_targets_keys _ _ _ _ _ Htargets Hwf).
Qed.

Lemma position_command_addresses_limb_joints_witness :
  let st := Example.adapter Example.zeros "position" in
  let w := world_reporting (firstn 6 Example.zeros) in
  exists targets,
    logged st
      [set_joint_positions
         (position_command Example.right_joints
            (clipped_deltas [0.01; 0.01; 0.01; 0.01; 0.01; 0.01; 0.01])
            (firstn 6 Example.zeros))]
    = logged st [set_joint_positions targets]
    /\ keys targets = keys (limb_joint_angles w).
Proof.
  apply (position_command_addresses_limb_joints
           (world_reporting (firstn 6 Example.zeros))
           (Example.adapter Example.zeros "position") _
           [0.01; 0.01; 0.01; 0.01; 0.01; 0.01; 0.01]).
  - unfold dict_wf. simpl.
    repeat (constructor; [simpl; intuition discriminate|]). constructor.
  - reflexivity.
Defined.

(** X19. A command vector of one entry is broadcast: it commands every joint
    by that one delta, exactly as the vector holding it seven times. *)
Theorem send_command_broadcasts_single_entry (w : World) (st : St) (c : Q) :
  send_command [c] w st = send_command [c; c; c; c; c; c; c] w st.
Proof.
  unfold send_command, action_space, bind, get_self, lift. simpl.
  destruct (action_space_of (self st)) as [e|box] eqn:Hbox; [reflexivity|].
  destruct (action_space_of_ok _ _ Hbox) as (_ & ->).
  reflexivity.
Qed.
